(** * The upload / trigger / check workflow of [app.py]

    A shallow embedding of the two request handlers [upload_image] and
    [check_resized_image] of [src/app.py], together with the Python string
    operations they use to name objects, and the properties of the
    workflow stated over them.

    The collaborators of the handlers (the S3 client, the API Gateway
    endpoint, the wall clock, [time.sleep] and [print]) are modelled by an
    explicit [world]; the handlers are written in a state-and-exception
    monad over it. *)

From Stdlib Require Import ZArith Ascii String List Lia.
From stdpp Require Import base option gmap strings.

Local Open Scope string_scope.

(** ** Python string operations *)

Module PyStr.

(** Characters of a string, for membership statements. *)
Fixpoint chars (s : string) : list ascii :=
  match s with
  | EmptyString => []
  | String c s' => c :: chars s'
  end.

(** [s.startswith(p)], returning what follows the prefix. *)
Fixpoint strip_prefix (p s : string) : option string :=
  match p with
  | EmptyString => Some s
  | String a p' =>
      match s with
      | EmptyString => None
      | String b s' => if Ascii.eqb a b then strip_prefix p' s' else None
      end
  end.

(** [old in s] for a non-empty [old]. *)
Fixpoint occurs (old s : string) : bool :=
  match strip_prefix old s with
  | Some _ => true
  | None =>
      match s with
      | EmptyString => false
      | String _ s' => occurs old s'
      end
  end.

(** [s.replace(old, new)] for non-empty [old]: the occurrences of [old]
    are found left to right, without overlap, and each is replaced.  The
    first argument bounds the number of scanning steps; every step
    consumes at least one character of [s], so [String.length s] steps
    always suffice (see [replace_scan_enough]). *)
Fixpoint replace_scan (steps : nat) (old new s : string) : string :=
  match steps with
  | O => s
  | S n =>
      match strip_prefix old s with
      | Some rest => new +:+ replace_scan n old new rest
      | None =>
          match s with
          | EmptyString => EmptyString
          | String c s' => String c (replace_scan n old new s')
          end
      end
  end.

(** [s.replace("", new)]: [new] is put before every character and at the
    end. *)
Fixpoint interleave (new s : string) : string :=
  match s with
  | EmptyString => new
  | String c s' => new +:+ String c (interleave new s')
  end.

Definition replace (old new s : string) : string :=
  match old with
  | EmptyString => interleave new s
  | String _ _ => replace_scan (String.length s) old new s
  end.

(** The text after the last occurrence of the character [sep], when
    there is one. *)
Fixpoint after_last (sep : ascii) (s : string) : option string :=
  match s with
  | EmptyString => None
  | String c s' =>
      match after_last sep s' with
      | Some t => Some t
      | None => if Ascii.eqb c sep then Some s' else None
      end
  end.

(** [s.rsplit(sep, 1)[-1]]: the last field of a split at the last
    separator; the whole string when the separator does not occur. *)
Definition rsplit1_last (sep : ascii) (s : string) : string :=
  match after_last sep s with
  | Some t => t
  | None => s
  end.

End PyStr.

(** ** The wall clock and [strftime] *)

(** What [datetime.now()] returns.  Python keeps [1 <= year <= 9999]. *)
Record datetime := {
  year : nat; month : nat; day : nat;
  hour : nat; minute : nat; second : nat;
  microsecond : nat
}.

Definition valid_datetime (d : datetime) : Prop :=
  (year d < 10 ^ 4 /\ month d < 100 /\ day d < 100 /\
   hour d < 100 /\ minute d < 100 /\ second d < 100)%nat.

Module Strftime.

Definition digit (n : nat) : ascii := ascii_of_nat (48 + n mod 10).

(** The [w] low decimal digits of [n], most significant first: the
    zero-padded decimal of width [w] of any [n < 10 ^ w]. *)
Fixpoint zero_padded (w n : nat) : string :=
  match w with
  | O => EmptyString
  | S w' => zero_padded w' (n / 10) +:+ String (digit n) EmptyString
  end.

(** The directives used by the application, each zero-padded to its
    width as Python documents them ([%Y] to four digits; the C library of
    some platforms does not pad a year below 1000, which no running clock
    reads); an unknown directive is left as it is. *)
Definition directive (c : ascii) (d : datetime) : string :=
  if Ascii.eqb c "Y" then zero_padded 4 (year d)
  else if Ascii.eqb c "m" then zero_padded 2 (month d)
  else if Ascii.eqb c "d" then zero_padded 2 (day d)
  else if Ascii.eqb c "H" then zero_padded 2 (hour d)
  else if Ascii.eqb c "M" then zero_padded 2 (minute d)
  else if Ascii.eqb c "S" then zero_padded 2 (second d)
  else String "%" (String c EmptyString).

(** [d.strftime(fmt)] *)
Fixpoint strftime (fmt : string) (d : datetime) : string :=
  match fmt with
  | EmptyString => EmptyString
  | String c rest =>
      if Ascii.eqb c "%" then
        match rest with
        | EmptyString => String c EmptyString
        | String k rest' => directive k d +:+ strftime rest' d
        end
      else String c (strftime rest d)
  end.

End Strftime.

(** ** Key naming (lines 124-126, 150 and 163) *)

(** Line 124: [datetime.now().strftime("%Y%m%d%H%M%S")]. *)
Definition timestamp_of (now : datetime) : string :=
  Strftime.strftime "%Y%m%d%H%M%S" now.

(** Line 125: [file.filename.rsplit('.', 1)[-1]]. *)
Definition extension_of (filename : string) : string :=
  PyStr.rsplit1_last "." filename.

(** Line 126: [f"{timestamp}.{extension}"]. *)
Definition make_source_key (timestamp extension : string) : string :=
  timestamp +:+ "." +:+ extension.

Definition source_key_of (now : datetime) (filename : string) : string :=
  make_source_key (timestamp_of now) (extension_of filename).

(** Line 150: [resized_key = f"resized-{source_key}"]. *)
Definition derive_target_key (source_key : string) : string :=
  "resized-" +:+ source_key.

(** Line 163: [source_key = resized_key.replace("resized-", "")]. *)
Definition derive_source_key (resized_key : string) : string :=
  PyStr.replace "resized-" "" resized_key.

(** ** The world of the handlers *)

(** Lines 18-20: the environment variables read at start-up. *)
Record config := {
  SOURCE_BUCKET : string;
  TARGET_BUCKET : string;
  API_GATEWAY_URL : string
}.

(** Python exceptions, as far as the handlers tell them apart: the S3
    client's [ClientError] (an error response of the service, with its
    error code: ["404"], ["403"], ...) and every other [Exception]
    (connection failures, timeouts, upload failures, ...), with its class
    name.  [message] is [str(e)]. *)
Inductive exn :=
| ClientError (code message : string)
| OtherException (class message : string).

Definition is_ClientError (e : exn) : bool :=
  match e with
  | ClientError _ _ => true
  | OtherException _ _ => false
  end.

Definition str (e : exn) : string :=
  match e with
  | ClientError _ m => m
  | OtherException _ m => m
  end.

(** The JSON body of the request posted to the API Gateway (lines
    137-143). *)
Record trigger_payload := {
  tp_source_key : string;
  tp_width : Z;
  tp_height : Z;
  tp_source_bucket : string;
  tp_target_bucket : string
}.

(** What the handlers do to the outside, in the order they do it. *)
Inductive event :=
| EvUpload (bucket key : string) (body : list Byte.byte)
| EvPrint (text : string)
| EvSleep (seconds : nat)
| EvPost (url : string) (payload : trigger_payload)
| EvHead (bucket key : string)
| EvFlash (text category : string).

(** - [objects]: the content of the buckets, by (bucket, key);
    - [gateway]: the status with which the API Gateway answers a request
      that reaches it;
    - [clock]: the reading of the wall clock, which a handler takes once,
      before anything else;
    - [fault_at n]: the exception with which the [n]-th network call
      (upload, post or head, counted from 0) fails, if it fails for a
      reason of its own (no connection, access denied, ...);
    - [calls]: the number of network calls made so far;
    - [trace]: the events so far, oldest first. *)
Record world := {
  objects : gmap (string * string) (list Byte.byte);
  gateway : trigger_payload -> Z;
  clock : datetime;
  fault_at : nat -> option exn;
  calls : nat;
  trace : list event
}.

Definition emit (ev : event) (w : world) : world :=
  {| objects := objects w; gateway := gateway w; clock := clock w;
     fault_at := fault_at w; calls := calls w;
     trace := trace w ++ [ev] |}.

Definition count_call (w : world) : world :=
  {| objects := objects w; gateway := gateway w; clock := clock w;
     fault_at := fault_at w; calls := S (calls w);
     trace := trace w |}.

Definition store (bucket key : string) (body : list Byte.byte) (w : world)
  : world :=
  {| objects := <[(bucket, key) := body]> (objects w);
     gateway := gateway w; clock := clock w;
     fault_at := fault_at w; calls := calls w;
     trace := trace w |}.

(** ** State and exceptions *)

(** A computation either returns a value or raises, and changes the
    world. *)
Definition M (A : Type) : Type := world -> (A + exn) * world.

Definition ret {A} (a : A) : M A := fun w => (inl a, w).

Definition bind {A B} (m : M A) (k : A -> M B) : M B :=
  fun w =>
    match m w with
    | (inl a, w') => k a w'
    | (inr e, w') => (inr e, w')
    end.

(** [try: body  except <class> as e: handler]: the handler runs in the
    world the body left, for the exceptions the clause catches. *)
Definition try_except {A} (body : M A) (catches : exn -> bool)
    (handler : exn -> M A) : M A :=
  fun w =>
    match body w with
    | (inl a, w') => (inl a, w')
    | (inr e, w') => if catches e then handler e w' else (inr e, w')
    end.

Declare Scope py_scope.
Delimit Scope py_scope with py.
Notation "x <- c ;; k" := (bind c (fun x => k))
  (at level 100, c at next level, right associativity) : py_scope.
Notation "c ;; k" := (bind c (fun _ => k))
  (at level 100, right associativity) : py_scope.
Local Open Scope py_scope.

(** ** The collaborators *)

(** [datetime.now()] *)
Definition datetime_now : M datetime := fun w => (inl (clock w), w).

(** [print(text)] *)
Definition print (text : string) : M unit :=
  fun w => (inl tt, emit (EvPrint text) w).

(** [time.sleep(seconds)] *)
Definition sleep (seconds : nat) : M unit :=
  fun w => (inl tt, emit (EvSleep seconds) w).

(** [flash(text, category)] *)
Definition flash (text category : string) : M unit :=
  fun w => (inl tt, emit (EvFlash text category) w).

(** An uploaded file of [request.files]. *)
Record uploaded_file := {
  filename : string;
  content : list Byte.byte
}.

(** [s3.upload_fileobj(file, bucket, key)]: the object is stored unless
    the call fails. *)
Definition s3_upload_fileobj (f : uploaded_file) (bucket key : string)
  : M unit :=
  fun w =>
    let w1 := count_call (emit (EvUpload bucket key (content f)) w) in
    match fault_at w (calls w) with
    | Some e => (inr e, w1)
    | None => (inl tt, store bucket key (content f) w1)
    end.

(** The answer of [requests.post], of which the handler reads
    [status_code]. *)
Record http_response := { status_code : Z }.

(** [requests.post(url, json=payload)]: raises when the request does not
    reach the endpoint, and returns the endpoint's answer otherwise. *)
Definition requests_post (url : string) (payload : trigger_payload)
  : M http_response :=
  fun w =>
    let w1 := count_call (emit (EvPost url payload) w) in
    match fault_at w (calls w) with
    | Some e => (inr e, w1)
    | None => (inl {| status_code := gateway w payload |}, w1)
    end.

(** The answer of [s3.head_object], of which the handler reads
    ['ContentLength']. *)
Record object_metadata := { ContentLength : Z }.

(** What the [n]-th network call gets when it is a [head_object] of
    (bucket, key): the fault of that call if there is one, the 404
    [ClientError] of S3 when there is no such object, and the length of
    the object otherwise. *)
Definition head_result (w : world) (n : nat) (bucket key : string)
  : object_metadata + exn :=
  match fault_at w n with
  | Some e => inr e
  | None =>
      match objects w !! (bucket, key) with
      | Some body => inl {| ContentLength := Z.of_nat (length body) |}
      | None => inr (ClientError "404" "Not Found")
      end
  end.

(** [s3.head_object(Bucket=bucket, Key=key)] *)
Definition s3_head_object (bucket key : string) : M object_metadata :=
  fun w =>
    (head_result w (calls w) bucket key,
     count_call (emit (EvHead bucket key) w)).

(** ** Requests and responses *)

Inductive json_value :=
| JString (s : string)
| JInt (z : Z)
| JBool (b : bool).

(** [jsonify({...})] with its status ([200] unless the handler gives
    one), or [redirect(url_for(endpoint))]. *)
Inductive response :=
| Json (fields : list (string * json_value)) (status : Z)
| Redirect (endpoint : string).

(** The form of a POST to [/upload], after lines 120-122: the file and
    the two integers that [int(...)] made of the form fields.  (A field
    that is not an integer makes [int] raise before line 124, that is
    before any collaborator is called.) *)
Record upload_request := {
  file : uploaded_file;
  width : Z;
  height : Z
}.

(** ** The handlers *)

(** Lines 44-51: the decorator of the protected routes.  [session] is the
    set of keys of the session cookie. *)
Definition login_required (f : M response) (session : gset string)
  : M response :=
  if decide ("user_id" ∈ session) then f
  else
    flash "You need to log in first." "danger";;
    ret (Redirect "login").

(** Lines 119-157: the body of the handler of [POST /upload]. *)
Definition upload_image (cfg : config) (req : upload_request) : M response :=
  now <- datetime_now;;
  let timestamp := timestamp_of now in
  let extension := extension_of (filename (file req)) in
  let source_key := make_source_key timestamp extension in
  failed <-
    try_except
      (s3_upload_fileobj (file req) (SOURCE_BUCKET cfg) source_key;;
       print "Image uploaded successfully.";;
       sleep 5;;
       ret None)
      (fun _ => true)
      (fun e =>
         ret (Some (Json [("message", JString "File upload failed.");
                          ("error", JString (str e))] 500)));;
  match failed with
  | Some resp => ret resp
  | None =>
      response <-
        requests_post (API_GATEWAY_URL cfg)
          {| tp_source_key := source_key;
             tp_width := width req;
             tp_height := height req;
             tp_source_bucket := SOURCE_BUCKET cfg;
             tp_target_bucket := TARGET_BUCKET cfg |};;
      if negb (status_code response =? 200)%Z then
        ret (Json [("message", JString "Image resizing failed.")] 500)
      else
        let original_url :=
          "https://" +:+ SOURCE_BUCKET cfg +:+ ".s3.amazonaws.com/"
            +:+ source_key in
        let resized_key := derive_target_key source_key in
        let resized_url :=
          "https://" +:+ TARGET_BUCKET cfg +:+ ".s3.amazonaws.com/"
            +:+ resized_key in
        ret (Json [("original_url", JString original_url);
                   ("resized_url", JString resized_url);
                   ("resized_key", JString resized_key)] 200)
  end.

(** Lines 161-177: the body of the handler of [POST /check-resized], on
    the ['resized_key'] of the request's JSON. *)
Definition check_resized_image (cfg : config) (resized_key : string)
  : M response :=
  let source_key := derive_source_key resized_key in
  try_except
    (_ <- s3_head_object (TARGET_BUCKET cfg) resized_key;;
     original_obj <- s3_head_object (SOURCE_BUCKET cfg) source_key;;
     resized_obj <- s3_head_object (TARGET_BUCKET cfg) resized_key;;
     let original_size := ContentLength original_obj in
     let resized_size := ContentLength resized_obj in
     ret (Json [("exists", JBool true);
                ("original_size", JInt original_size);
                ("resized_size", JInt resized_size)] 200))
    is_ClientError
    (fun _ => ret (Json [("exists", JBool false)] 200)).

(** The two routes as registered (lines 117-118 and 159-160). *)
Definition route_upload (cfg : config) (session : gset string)
    (req : upload_request) : M response :=
  login_required (upload_image cfg req) session.

Definition route_check_resized (cfg : config) (session : gset string)
    (resized_key : string) : M response :=
  login_required (check_resized_image cfg resized_key) session.

(** ** Observing a run *)

(** The events a computation adds to the trace of [w]. *)
Definition events_of {A} (m : M A) (w : world) : list event :=
  drop (length (trace w)) (trace (snd (m w))).

(** Lines 137-143: the request that [upload_image] posts for [req] when
    the clock reads [now]. *)
Definition order (cfg : config) (now : datetime) (req : upload_request)
  : trigger_payload :=
  {| tp_source_key := source_key_of now (filename (file req));
     tp_width := width req;
     tp_height := height req;
     tp_source_bucket := SOURCE_BUCKET cfg;
     tp_target_bucket := TARGET_BUCKET cfg |}.

(** The calls that go over the network: to the store or to the trigger
    endpoint. *)
Definition is_network_call (ev : event) : bool :=
  match ev with
  | EvUpload _ _ _ | EvPost _ _ | EvHead _ _ => true
  | EvPrint _ | EvSleep _ | EvFlash _ _ => false
  end.

(** The answer of S3 to a head of an object that is not there. *)
Definition is_not_found (e : exn) : bool :=
  match e with
  | ClientError code _ => String.eqb code "404"
  | OtherException _ _ => false
  end.

(** Two clock readings within the same second. *)
Definition same_second (d1 d2 : datetime) : Prop :=
  year d1 = year d2 /\ month d1 = month d2 /\ day d1 = day d2 /\
  hour d1 = hour d2 /\ minute d1 = minute d2 /\ second d1 = second d2.

(** ** Concrete scenarios *)

Module Scenario.

Definition cfg : config :=
  {| SOURCE_BUCKET := "uploads";
     TARGET_BUCKET := "resized";
     API_GATEWAY_URL := "https://api.example.com/resize" |}.

(** 2024-01-01 12:00:00 *)
Definition noon (usec : nat) : datetime :=
  {| year := 2024; month := 1; day := 1;
     hour := 12; minute := 0; second := 0; microsecond := usec |}.

Definition zeros (n : nat) : list Byte.byte := repeat Byte.x00 n.

(** Empty buckets, a gateway that answers [status], and the faults
    [faults]. *)
Definition fresh (status : Z) (faults : nat -> option exn) : world :=
  {| objects := ∅; gateway := fun _ => status; clock := noon 0;
     fault_at := faults; calls := 0; trace := [] |}.

Definition no_fault : nat -> option exn := fun _ => None.

(** Only the [n]-th network call fails, with [e]. *)
Definition fault_only (n : nat) (e : exn) : nat -> option exn :=
  fun i => if Nat.eqb i n then Some e else None.

Definition png (name : string) (size : nat) (w h : Z) : upload_request :=
  {| file := {| filename := name; content := zeros size |};
     width := w; height := h |}.

(** The remote transform writing its result. *)
Definition transform_done (resized_key : string) (size : nat) (w : world)
  : world :=
  store (TARGET_BUCKET cfg) resized_key (zeros size) w.

End Scenario.


(** * The site around the workflow: accounts and sessions *)

Module Site.

(** What the application takes from its platform: the two password
    functions of [werkzeug.security] ([generate_password_hash] draws a
    salt, which is made explicit here) and the comparison that the
    database applies between a text column and a value (equality up to
    the collation of the column). *)
Record platform := {
  generate_password_hash : string -> string -> string;
  check_password_hash : string -> string -> bool;
  column_eq : string -> string -> bool
}.

(** Lines 33-38: a row of the table of the [User] model. *)
Record user := {
  id : nat;
  username : string;
  email : string;
  password : string;
  registration_date : datetime
}.

(** - [net]: the world of the upload workflow, whose trace also takes the
      flashed messages;
    - [cookie]: the session of the request, by key, as far as the
      application writes it (Flask keeps the queue of flashed messages in
      the session too; here a flash is an event of the trace);
    - [users]: the rows of the table, oldest first; [next_id]: the
      primary key that the database gives to the next row;
    - [utc_clock]: the reading of [datetime.utcnow];
    - [salts n]: the salt drawn by the [n]-th call of
      [generate_password_hash]; [hashes]: the number of calls so far;
    - [db_fault_at n]: the exception with which the [n]-th round trip to
      the database (a query or a commit, counted from 0) fails for a
      reason of its own (connection lost, value too long for its column,
      ...); [db_calls]: the number of round trips so far. *)
Record site := {
  net : world;
  cookie : gmap string json_value;
  users : list user;
  next_id : nat;
  utc_clock : datetime;
  salts : nat -> string;
  hashes : nat;
  db_fault_at : nat -> option exn;
  db_calls : nat
}.

Definition with_net (w : world) (s : site) : site :=
  {| net := w; cookie := cookie s; users := users s; next_id := next_id s;
     utc_clock := utc_clock s; salts := salts s; hashes := hashes s;
     db_fault_at := db_fault_at s; db_calls := db_calls s |}.

Definition with_cookie (c : gmap string json_value) (s : site) : site :=
  {| net := net s; cookie := c; users := users s; next_id := next_id s;
     utc_clock := utc_clock s; salts := salts s; hashes := hashes s;
     db_fault_at := db_fault_at s; db_calls := db_calls s |}.

Definition with_row (u : user) (s : site) : site :=
  {| net := net s; cookie := cookie s; users := users s ++ [u];
     next_id := S (next_id s);
     utc_clock := utc_clock s; salts := salts s; hashes := hashes s;
     db_fault_at := db_fault_at s; db_calls := db_calls s |}.

Definition count_hash (s : site) : site :=
  {| net := net s; cookie := cookie s; users := users s; next_id := next_id s;
     utc_clock := utc_clock s; salts := salts s; hashes := S (hashes s);
     db_fault_at := db_fault_at s; db_calls := db_calls s |}.

Definition count_db (s : site) : site :=
  {| net := net s; cookie := cookie s; users := users s; next_id := next_id s;
     utc_clock := utc_clock s; salts := salts s; hashes := hashes s;
     db_fault_at := db_fault_at s; db_calls := S (db_calls s) |}.

(** ** State and exceptions, over the site *)

Definition St (A : Type) : Type := site -> (A + exn) * site.

Definition ret {A} (a : A) : St A := fun s => (inl a, s).

Definition bind {A B} (m : St A) (k : A -> St B) : St B :=
  fun s =>
    match m s with
    | (inl a, s') => k a s'
    | (inr e, s') => (inr e, s')
    end.

(** A computation on the world of the workflow, run on [net]. *)
Definition lift {A} (m : M A) : St A :=
  fun s => (fst (m (net s)), with_net (snd (m (net s))) s).

Declare Scope site_scope.
Delimit Scope site_scope with site.
Notation "x <- c ;; k" := (bind c (fun x => k))
  (at level 100, c at next level, right associativity) : site_scope.
Notation "c ;; k" := (bind c (fun _ => k))
  (at level 100, right associativity) : site_scope.
Local Open Scope site_scope.

(** ** The session *)

(** [key in session] *)
Definition session_has (key : string) : St bool :=
  fun s => (inl (bool_decide (is_Some (cookie s !! key))), s).

(** [session[key] = value] *)
Definition session_set (key : string) (value : json_value) : St unit :=
  fun s => (inl tt, with_cookie (<[key := value]> (cookie s)) s).

(** [session.clear()] *)
Definition session_clear : St unit :=
  fun s => (inl tt, with_cookie ∅ s).

(** ** The database *)

(** [User.query.filter_by(<column>=value).first()]: a row whose column
    compares equal to the value, if there is one (the oldest one here;
    the unique indexes leave one at most). *)
Definition query_first (P : platform) (column : user -> string)
    (value : string) : St (option user) :=
  fun s =>
    match db_fault_at s (db_calls s) with
    | Some e => (inr e, count_db s)
    | None =>
        (inl (find (fun u => column_eq P (column u) value) (users s)),
         count_db s)
    end.

(** Whether the unique indexes of lines 35 and 36 refuse a row with this
    username and this email. *)
Definition taken (P : platform) (uname mail : string) (rows : list user)
  : bool :=
  existsb
    (fun u => column_eq P (username u) uname || column_eq P (email u) mail)
    rows.

(** [db.session.add(User(username=..., email=..., password=...))] followed
    by [db.session.commit()]: the row gets its primary key and its
    registration date (line 38) and is inserted, unless a unique index
    refuses it. *)
Definition add_commit (P : platform) (uname mail pw : string) : St unit :=
  fun s =>
    match db_fault_at s (db_calls s) with
    | Some e => (inr e, count_db s)
    | None =>
        if taken P uname mail (users s) then
          (inr (OtherException "IntegrityError" "Duplicate entry"),
           count_db s)
        else
          (inl tt,
           with_row {| id := next_id s; username := uname; email := mail;
                       password := pw;
                       registration_date := utc_clock s |}
             (count_db s))
    end.

(** [generate_password_hash(password, method='pbkdf2:sha256')] *)
Definition hash_password (P : platform) (pw : string) : St string :=
  fun s =>
    (inl (generate_password_hash P (salts s (hashes s)) pw), count_hash s).

(** ** The handlers *)

(** What a handler returns: a response of the workflow, or a rendered
    template. *)
Inductive view :=
| Plain (r : response)
| Template (name : string).

(** Lines 44-51: the decorator, with the session read from the request. *)
Definition login_required (f : St view) : St view :=
  logged_in <- session_has "user_id";;
  if negb logged_in then
    lift (flash "You need to log in first." "danger");;
    ret (Plain (Redirect "login"))
  else f.

(** Lines 53-57 *)
Definition index : St view :=
  logged_in <- session_has "user_id";;
  if logged_in then ret (Plain (Redirect "resize_image"))
  else ret (Template "index.html").

(** The form of a POST to [/register] (lines 61-63). *)
Record register_form := {
  reg_uname : string;
  reg_email : string;
  reg_psw : string
}.

(** Lines 59-71 *)
Definition register (P : platform) (form : register_form) : St view :=
  let username := reg_uname form in
  let email := reg_email form in
  let password := reg_psw form in
  hashed_password <- hash_password P password;;
  add_commit P username email hashed_password;;
  ret (Plain (Json [("message",
                     JString "User registered successfully! Please log in.")]
                200)).

(** [data.get(key, '')] on the JSON object of the request, whose values
    are read as texts. *)
Definition get_or_empty (data : gmap string string) (key : string) : string :=
  match data !! key with
  | Some v => v
  | None => ""
  end.

(** Lines 73-82 *)
Definition check_availability (P : platform) (data : gmap string string)
  : St view :=
  let uname := get_or_empty data "uname" in
  let mail := get_or_empty data "email" in
  by_username <- query_first P username uname;;
  let username_exists := bool_decide (is_Some by_username) in
  by_email <- query_first P email mail;;
  let email_exists := bool_decide (is_Some by_email) in
  ret (Plain (Json [("usernameExists", JBool username_exists);
                    ("emailExists", JBool email_exists)] 200)).

(** The form of a POST to [/login] (lines 91-92). *)
Record login_form := {
  log_uname : string;
  log_psw : string
}.

(** Lines 84-104.  [method] is [request.method]; the form is read on a
    POST only. *)
Definition login (P : platform) (method : string) (form : login_form)
  : St view :=
  logged_in <- session_has "user_id";;
  if logged_in then ret (Plain (Redirect "resize_image"))
  else
    answered <-
      (if String.eqb method "POST" then
         let uname := log_uname form in
         let psw := log_psw form in
         found <- query_first P username uname;;
         match found with
         | Some user =>
             if check_password_hash P (password user) psw then
               session_set "user_id" (JInt (Z.of_nat (id user)));;
               session_set "username" (JString (username user));;
               lift (flash "Login successful!" "success");;
               ret (Some (Plain (Redirect "resize_image")))
             else
               lift (flash
                       "Login failed! Check your username and/or password."
                       "danger");;
               ret None
         | None =>
             lift (flash
                     "Login failed! Check your username and/or password."
                     "danger");;
             ret None
         end
       else ret None);;
    match answered with
    | Some v => ret v
    | None => ret (Template "login.html")
    end.

(** Lines 106-110 *)
Definition logout : St view :=
  session_clear;;
  lift (flash "You have been logged out." "success");;
  ret (Plain (Redirect "index")).

(** Lines 112-115 *)
Definition resize_image : St view :=
  login_required (ret (Template "resize-image.html")).

(** A handler of the workflow as a handler of the site. *)
Definition plain (m : M response) : St view :=
  r <- lift m;; ret (Plain r).

(** Lines 117-119 and 159-161: the two routes of the workflow, behind the
    decorator. *)
Definition upload (cfg : config) (req : upload_request) : St view :=
  login_required (plain (upload_image cfg req)).

Definition check_resized (cfg : config) (resized_key : string) : St view :=
  login_required (plain (check_resized_image cfg resized_key)).

(** ** Observing the site *)

Definition logged_in (s : site) : Prop := is_Some (cookie s !! "user_id").

(** The flashes and network calls that a computation adds to the trace. *)
Definition site_events {A} (m : St A) (s : site) : list event :=
  drop (length (trace (net s))) (trace (net (snd (m s)))).

(** No row compares equal, in username or in email, to a row inserted
    before it. *)
Fixpoint unique_rows (P : platform) (rows : list user) : Prop :=
  match rows with
  | [] => True
  | u :: rest =>
      unique_rows P rest
      /\ forall v, In v rest ->
           column_eq P (username u) (username v) = false
           /\ column_eq P (email u) (email v) = false
  end.

(** The passwords that [check_password_hash] accepts include the one a
    hash was generated from. *)
Definition hash_complete (P : platform) : Prop :=
  forall salt pw,
    check_password_hash P (generate_password_hash P salt pw) pw = true.

Definition column_eq_refl (P : platform) : Prop :=
  forall v, column_eq P v v = true.

End Site.

(** ** Concrete sites *)

Module SiteScenario.

(** A stand-in platform: the hash is the salt put before the password,
    which is checked by stripping the salt of this scenario; columns
    compare by equality. *)
Definition toy : Site.platform :=
  {| Site.generate_password_hash := fun _ pw => "s0$" +:+ pw;
     Site.check_password_hash :=
       fun h pw =>
         match PyStr.strip_prefix "s0$" h with
         | Some t => String.eqb t pw
         | None => false
         end;
     Site.column_eq := String.eqb |}.

Definition alice : Site.user :=
  {| Site.id := 1; Site.username := "alice";
     Site.email := "alice@example.com";
     Site.password := "s0$wonderland";
     Site.registration_date := Scenario.noon 0 |}.

(** A site with the rows [rows], the session [c] and no fault. *)
Definition site_of (rows : list Site.user) (c : gmap string json_value)
  : Site.site :=
  {| Site.net := Scenario.fresh 200 Scenario.no_fault;
     Site.cookie := c;
     Site.users := rows;
     Site.next_id := S (length rows);
     Site.utc_clock := Scenario.noon 0;
     Site.salts := fun _ => "s0";
     Site.hashes := 0;
     Site.db_fault_at := fun _ => None;
     Site.db_calls := 0 |}.

Definition anonymous : gmap string json_value := ∅.

Definition as_alice : gmap string json_value :=
  <["username" := JString "alice"]> (<["user_id" := JInt 1]> ∅).

End SiteScenario.

(** * Properties *)

(** ** Strings *)

Section PyStrFacts.

Import PyStr.

Lemma app_cons (a : ascii) (s t : string) :
  String a s +:+ t = String a (s +:+ t).
Proof. reflexivity. Qed.

Lemma app_empty (s : string) : "" +:+ s = s.
Proof. reflexivity. Qed.

Lemma strip_prefix_app (p s : string) : strip_prefix p (p +:+ s) = Some s.
Proof.
  induction p as [|a p IH]; simpl; [reflexivity|].
  rewrite Ascii.eqb_refl. exact IH.
Qed.

Lemma strip_prefix_Some (p s r : string) :
  strip_prefix p s = Some r -> s = p +:+ r.
Proof.
  revert s. induction p as [|a p IH]; intros s H; simpl in *.
  - by inversion H.
  - destruct s as [|b s]; [discriminate|].
    destruct (Ascii.eqb a b) eqn:E; [|discriminate].
    apply Ascii.eqb_eq in E. subst b.
    change (String a s = String a (p +:+ r)). f_equal. by apply IH.
Qed.

Lemma length_app (s t : string) :
  String.length (s +:+ t) = (String.length s + String.length t)%nat.
Proof.
  induction s as [|c s IH]; [reflexivity|].
  rewrite app_cons. simpl. by rewrite IH.
Qed.

(** Where the pattern does not occur, nothing is replaced, however far
    the scan goes. *)
Lemma replace_scan_absent (n : nat) (old new s : string) :
  occurs old s = false -> replace_scan n old new s = s.
Proof.
  revert s. induction n as [|n IH]; intros s H; simpl; [reflexivity|].
  destruct s as [|c s]; simpl in H.
  - destruct (strip_prefix old "") eqn:E; [discriminate | reflexivity].
  - destruct (strip_prefix old (String c s)) eqn:E; [discriminate|].
    f_equal. auto.
Qed.

(** The scan is over after [String.length s] steps: more steps change
    nothing. *)
Lemma replace_scan_enough (a : ascii) (p new : string) (n m : nat)
    (s : string) :
  (String.length s <= n)%nat -> (String.length s <= m)%nat ->
  replace_scan n (String a p) new s = replace_scan m (String a p) new s.
Proof.
  revert m s. induction n as [|n IH]; intros m s Hn Hm.
  - destruct s; [|simpl in Hn; lia]. destruct m; reflexivity.
  - destruct m as [|m].
    + destruct s; [reflexivity | simpl in Hm; lia].
    + cbn [replace_scan].
      destruct (strip_prefix (String a p) s) as [rest|] eqn:E.
      * apply strip_prefix_Some in E. subst s.
        rewrite length_app in Hn, Hm. simpl in Hn, Hm.
        f_equal. apply IH; lia.
      * destruct s as [|c s]; [reflexivity|].
        simpl in Hn, Hm. f_equal. apply IH; lia.
Qed.

(** Replacing in [old +:+ s] drops the leading [old] and goes on in
    [s]. *)
Lemma replace_prefixed (a : ascii) (p new s : string) :
  replace (String a p) new (String a p +:+ s)
  = new +:+ replace (String a p) new s.
Proof.
  unfold replace. rewrite length_app.
  change (String.length (String a p) + String.length s)%nat
    with (S (String.length p + String.length s)).
  cbn [replace_scan]. rewrite strip_prefix_app. f_equal.
  apply replace_scan_enough; lia.
Qed.

Lemma replace_absent (a : ascii) (p new s : string) :
  occurs (String a p) s = false -> replace (String a p) new s = s.
Proof. intros H. unfold replace. by apply replace_scan_absent. Qed.

(** Deleting occurrences never lengthens, and shortens when there is
    one. *)
Lemma replace_scan_delete_length (n : nat) (old s : string) :
  (String.length (replace_scan n old "" s) <= String.length s)%nat.
Proof.
  revert s. induction n as [|n IH]; intros s; simpl; [lia|].
  destruct (strip_prefix old s) as [rest|] eqn:E.
  - apply strip_prefix_Some in E. subst s. rewrite app_empty, length_app.
    specialize (IH rest). lia.
  - destruct s as [|c s]; simpl; [lia|]. specialize (IH s). lia.
Qed.

Lemma replace_scan_delete_shorter (a : ascii) (p : string) (n : nat)
    (s : string) :
  (String.length s <= n)%nat -> occurs (String a p) s = true ->
  (String.length (replace_scan n (String a p) "" s) < String.length s)%nat.
Proof.
  revert s. induction n as [|n IH]; intros s Hn Ho.
  - destruct s; [discriminate Ho | simpl in Hn; lia].
  - cbn [replace_scan].
    destruct (strip_prefix (String a p) s) as [rest|] eqn:E.
    + apply strip_prefix_Some in E. subst s. rewrite app_empty, length_app.
      pose proof (replace_scan_delete_length n (String a p) rest).
      simpl in *. lia.
    + destruct s as [|c s]; [discriminate Ho|].
      assert (Ho' : occurs (String a p) s = true).
      { revert Ho. cbn [occurs]. by rewrite E. }
      simpl in Hn. specialize (IH s ltac:(lia) Ho'). simpl. lia.
Qed.

(** Two concatenations that agree, with first parts of the same length,
    agree part by part. *)
Lemma app_eq_split (s1 s2 t1 t2 : string) :
  String.length s1 = String.length s2 ->
  s1 +:+ t1 = s2 +:+ t2 -> s1 = s2 /\ t1 = t2.
Proof.
  revert s2. induction s1 as [|a s1 IH]; intros [|b s2] Hl H;
    try discriminate Hl.
  - by rewrite !app_empty in H.
  - rewrite !app_cons in H. injection H as -> H. injection Hl as Hl.
    destruct (IH _ Hl H) as [-> ->]. done.
Qed.

Lemma chars_app (s t : string) : chars (s +:+ t) = (chars s ++ chars t)%list.
Proof.
  induction s as [|a s IH]; [reflexivity|].
  rewrite app_cons. simpl. by rewrite IH.
Qed.

(** Two concatenations around a separator that occurs in neither first
    part agree part by part. *)
Lemma sep_eq_split (c : ascii) (s1 s2 t1 t2 : string) :
  ~ In c (chars s1) -> ~ In c (chars s2) ->
  s1 +:+ String c t1 = s2 +:+ String c t2 -> s1 = s2 /\ t1 = t2.
Proof.
  revert s2. induction s1 as [|a s1 IH]; intros [|b s2] H1 H2 H.
  - rewrite !app_empty in H. by injection H.
  - rewrite app_empty, app_cons in H. injection H as -> _.
    exfalso. apply H2. by left.
  - rewrite app_empty, app_cons in H. injection H as -> _.
    exfalso. apply H1. by left.
  - rewrite !app_cons in H. injection H as -> H.
    destruct (IH s2) as [-> ->]; [| |exact H|done].
    + intros Hin. apply H1. by right.
    + intros Hin. apply H2. by right.
Qed.

(** The last field of [rsplit] holds no separator. *)
Lemma after_last_no_sep (c : ascii) (s t : string) :
  after_last c s = Some t -> ~ In c (chars t).
Proof.
  revert t. induction s as [|a s IH]; intros t H; simpl in H.
  - discriminate.
  - destruct (after_last c s) as [u|] eqn:E.
    + injection H as <-. by apply IH.
    + destruct (Ascii.eqb a c); [|discriminate]. injection H as <-.
      clear IH. induction s as [|b s IHs]; [by intros []|].
      simpl in E. destruct (after_last c s) eqn:E'; [discriminate|].
      destruct (Ascii.eqb b c) eqn:Eb; [discriminate|].
      intros [->|Hin]; [by rewrite Ascii.eqb_refl in Eb | by apply IHs].
Qed.

Lemma after_last_None (c : ascii) (s : string) :
  after_last c s = None -> ~ In c (chars s).
Proof.
  induction s as [|b s IHs]; [by intros _ []|].
  simpl. destruct (after_last c s) eqn:E'; [discriminate|].
  destruct (Ascii.eqb b c) eqn:Eb; [discriminate|].
  intros _ [->|Hin]; [by rewrite Ascii.eqb_refl in Eb | by apply IHs].
Qed.

Lemma rsplit1_last_no_sep (c : ascii) (s : string) :
  ~ In c (chars (rsplit1_last c s)).
Proof.
  unfold rsplit1_last. destruct (after_last c s) as [t|] eqn:E.
  - by eapply after_last_no_sep.
  - by apply after_last_None.
Qed.

(** An occurrence of a pattern cannot start in a stretch that lacks the
    first character of the pattern. *)
Lemma occurs_skip (a : ascii) (p s t : string) :
  ~ In a (chars s) ->
  occurs (String a p) (s +:+ t) = occurs (String a p) t.
Proof.
  induction s as [|c s IH]; intros H; [reflexivity|].
  rewrite app_cons.
  assert (Hc : Ascii.eqb a c = false).
  { apply Ascii.eqb_neq. intros ->. apply H. by left. }
  change (occurs (String a p) (String c (s +:+ t)))
    with (match (if Ascii.eqb a c then strip_prefix p (s +:+ t) else None)
          with
          | Some _ => true
          | None => occurs (String a p) (s +:+ t)
          end).
  rewrite Hc. apply IH. intros Hin. apply H. by right.
Qed.

Example replace_all_occurrences :
  replace "ab" "-" "abcabab!" = "-c--!".
Proof. reflexivity. Qed.

Example replace_no_overlap : replace "aa" "b" "aaa" = "ba".
Proof. reflexivity. Qed.

Example replace_empty_pattern : replace "" "-" "abc" = "-a-b-c-".
Proof. reflexivity. Qed.

Example rsplit_two_dots : rsplit1_last "." "a.tar.gz" = "gz".
Proof. reflexivity. Qed.

Example rsplit_no_dot : rsplit1_last "." "README" = "README".
Proof. reflexivity. Qed.

Example rsplit_trailing_dot : rsplit1_last "." "photo." = "".
Proof. reflexivity. Qed.

End PyStrFacts.

(** ** Timestamps *)

Section StrftimeFacts.

Import PyStr Strftime.

Lemma digit_spec (n : nat) : nat_of_ascii (digit n) = (48 + n mod 10)%nat.
Proof.
  unfold digit. apply nat_ascii_embedding.
  pose proof (Nat.mod_upper_bound n 10). lia.
Qed.

Lemma digit_inj (n m : nat) : digit n = digit m -> n mod 10 = m mod 10.
Proof.
  intros H. apply (f_equal nat_of_ascii) in H. rewrite !digit_spec in H. lia.
Qed.

Lemma zero_padded_length (w n : nat) : String.length (zero_padded w n) = w.
Proof.
  revert n. induction w as [|w IH]; intros n; [reflexivity|].
  cbn [zero_padded]. rewrite length_app, IH. simpl. lia.
Qed.

Lemma zero_padded_digits (w n : nat) (c : ascii) :
  In c (chars (zero_padded w n)) -> (48 <= nat_of_ascii c <= 57)%nat.
Proof.
  revert n. induction w as [|w IH]; intros n; [by intros []|].
  cbn [zero_padded]. rewrite chars_app, in_app_iff. cbn [chars In].
  intros [H|[<-|[]]]; [by apply (IH (n / 10)%nat)|].
  rewrite digit_spec. pose proof (Nat.mod_upper_bound n 10). lia.
Qed.

(** The padded decimal of width [w] determines the number below
    [10 ^ w]. *)
Lemma zero_padded_inj (w n m : nat) :
  zero_padded w n = zero_padded w m -> n mod 10 ^ w = m mod 10 ^ w.
Proof.
  revert n m. induction w as [|w IH]; intros n m H.
  - by rewrite !Nat.mod_1_r.
  - cbn [zero_padded] in H. apply app_eq_split in H as [H1 H2];
      [|by rewrite !zero_padded_length].
    injection H2 as H2. apply IH in H1. apply digit_inj in H2.
    rewrite Nat.pow_succ_r', !Nat.Div0.mod_mul_r. lia.
Qed.

Lemma zero_padded_inj_lt (w n m : nat) :
  (n < 10 ^ w)%nat -> (m < 10 ^ w)%nat ->
  zero_padded w n = zero_padded w m -> n = m.
Proof.
  intros Hn Hm H. apply zero_padded_inj in H.
  by rewrite !Nat.mod_small in H.
Qed.

(** The timestamp of line 124 is made of fourteen digits. *)
Lemma timestamp_of_unfold (d : datetime) :
  timestamp_of d =
  zero_padded 4 (year d) +:+ zero_padded 2 (month d) +:+
  zero_padded 2 (day d) +:+ zero_padded 2 (hour d) +:+
  zero_padded 2 (minute d) +:+ zero_padded 2 (second d) +:+ "".
Proof. reflexivity. Qed.

Lemma timestamp_of_digits (d : datetime) (c : ascii) :
  In c (chars (timestamp_of d)) -> (48 <= nat_of_ascii c <= 57)%nat.
Proof.
  rewrite timestamp_of_unfold, !chars_app, !in_app_iff.
  intros H.
  repeat (destruct H as [H|H]; [exact (zero_padded_digits _ _ _ H)|]).
  destruct H.
Qed.

Lemma timestamp_of_no_dot (d : datetime) :
  ~ In "."%char (chars (timestamp_of d)).
Proof. intros H. apply timestamp_of_digits in H. vm_compute in H. lia. Qed.

Example timestamp_of_noon :
  timestamp_of (Scenario.noon 0) = "20240101120000".
Proof. reflexivity. Qed.

(** Readings within the same second have the same timestamp, and only
    they. *)
Lemma timestamp_of_same_second (d1 d2 : datetime) :
  same_second d1 d2 -> timestamp_of d1 = timestamp_of d2.
Proof.
  intros (Hy & Hm & Hd & Hh & Hmi & Hs).
  rewrite !timestamp_of_unfold. congruence.
Qed.

Lemma timestamp_of_inj (d1 d2 : datetime) :
  valid_datetime d1 -> valid_datetime d2 ->
  timestamp_of d1 = timestamp_of d2 -> same_second d1 d2.
Proof.
  intros (Hy1 & Hm1 & Hd1 & Hh1 & Hmi1 & Hs1)
         (Hy2 & Hm2 & Hd2 & Hh2 & Hmi2 & Hs2) H.
  rewrite !timestamp_of_unfold in H.
  do 5 (apply app_eq_split in H as [? H];
        [|by rewrite !zero_padded_length]).
  apply app_eq_split in H as [? _]; [|by rewrite !zero_padded_length].
  unfold same_second. repeat split;
    match goal with
    | E : zero_padded ?w ?a = zero_padded ?w ?b |- ?a = ?b =>
        apply (zero_padded_inj_lt w a b);
        [assumption ..| exact E]
    end.
Qed.

End StrftimeFacts.

(** ** Key naming *)

Section KeyFacts.

Import PyStr.

(** Two source keys agree exactly when timestamps and extensions do. *)
Lemma make_source_key_inj (d1 d2 : datetime) (e1 e2 : string) :
  make_source_key (timestamp_of d1) e1 = make_source_key (timestamp_of d2) e2
  <-> timestamp_of d1 = timestamp_of d2 /\ e1 = e2.
Proof.
  unfold make_source_key. split.
  - apply sep_eq_split; apply timestamp_of_no_dot.
  - by intros [-> ->].
Qed.

Lemma source_key_of_eq_iff (d1 d2 : datetime) (f1 f2 : string) :
  valid_datetime d1 -> valid_datetime d2 ->
  source_key_of d1 f1 = source_key_of d2 f2
  <-> same_second d1 d2 /\ extension_of f1 = extension_of f2.
Proof.
  intros V1 V2. unfold source_key_of. rewrite make_source_key_inj.
  split; intros [H1 H2]; split; try done.
  - by apply timestamp_of_inj.
  - by apply timestamp_of_same_second.
Qed.

(** What [check_resized_image] makes of the key that [upload_image]
    derived: the source key with every ["resized-"] in it deleted. *)
Lemma derive_source_key_target (k : string) :
  derive_source_key (derive_target_key k) = replace "resized-" "" k.
Proof.
  unfold derive_source_key, derive_target_key.
  by rewrite replace_prefixed, app_empty.
Qed.

(** The round trip gives the source key back exactly when ["resized-"]
    does not occur in it. *)
Lemma derive_roundtrip_iff (k : string) :
  derive_source_key (derive_target_key k) = k
  <-> occurs "resized-" k = false.
Proof.
  rewrite derive_source_key_target. split.
  - intros H. destruct (occurs "resized-" k) eqn:E; [|done].
    exfalso. unfold replace in H.
    pose proof (replace_scan_delete_shorter _ _ (String.length k) k
                  (Nat.le_refl _) E) as Hlt.
    rewrite H in Hlt. lia.
  - apply replace_absent.
Qed.

(** ["resized-"] occurs in a source key exactly when it occurs in the
    extension: the timestamp and the dot hold no [r]. *)
Lemma source_key_of_marker (now : datetime) (f : string) :
  occurs "resized-" (source_key_of now f)
  = occurs "resized-" (extension_of f).
Proof.
  unfold source_key_of, make_source_key.
  rewrite occurs_skip.
  - apply (occurs_skip _ _ "."). intros [H|[]]. discriminate H.
  - intros H. apply timestamp_of_digits in H. vm_compute in H. lia.
Qed.

Lemma source_key_roundtrip_iff (now : datetime) (f : string) :
  derive_source_key (derive_target_key (source_key_of now f))
  = source_key_of now f
  <-> occurs "resized-" (extension_of f) = false.
Proof. by rewrite derive_roundtrip_iff, source_key_of_marker. Qed.

Lemma derive_target_key_neq (k : string) : derive_target_key k <> k.
Proof.
  intros H. apply (f_equal String.length) in H.
  unfold derive_target_key in H. rewrite length_app in H. simpl in H. lia.
Qed.

Lemma derive_target_key_inj (k1 k2 : string) :
  derive_target_key k1 = derive_target_key k2 -> k1 = k2.
Proof. unfold derive_target_key. apply (inj (String.app "resized-")). Qed.

(** The extension of line 125 holds no dot. *)
Lemma extension_of_no_dot (f : string) : ~ In "."%char (chars (extension_of f)).
Proof. apply rsplit1_last_no_sep. Qed.

End KeyFacts.

(** ** Running the handlers *)

Section Runs.

Variable cfg : config.

#[local] Arguments timestamp_of : simpl never.
#[local] Arguments extension_of : simpl never.
#[local] Arguments make_source_key : simpl never.
#[local] Arguments derive_target_key : simpl never.
#[local] Arguments derive_source_key : simpl never.
#[local] Arguments String.append : simpl never.

(** A run of [upload_image], step by step: the upload (network call
    [calls w]), then, if it went through, the message, the sleep and the
    post (network call [S (calls w)]). *)
Lemma upload_image_run (req : upload_request) (w : world) :
  let key := source_key_of (clock w) (filename (file req)) in
  let w1 :=
    count_call (emit (EvUpload (SOURCE_BUCKET cfg) key (content (file req))) w)
  in
  let w2 :=
    emit (EvSleep 5)
      (emit (EvPrint "Image uploaded successfully.")
         (store (SOURCE_BUCKET cfg) key (content (file req)) w1)) in
  let w3 :=
    count_call (emit (EvPost (API_GATEWAY_URL cfg) (order cfg (clock w) req)) w2)
  in
  upload_image cfg req w =
  match fault_at w (calls w) with
  | Some e =>
      (inl (Json [("message", JString "File upload failed.");
                  ("error", JString (str e))] 500), w1)
  | None =>
      match fault_at w (S (calls w)) with
      | Some e => (inr e, w3)
      | None =>
          if (gateway w (order cfg (clock w) req) =? 200)%Z then
            (inl (Json
                    [("original_url",
                      JString ("https://" +:+ SOURCE_BUCKET cfg +:+
                               ".s3.amazonaws.com/" +:+ key));
                     ("resized_url",
                      JString ("https://" +:+ TARGET_BUCKET cfg +:+
                               ".s3.amazonaws.com/" +:+
                               derive_target_key key));
                     ("resized_key", JString (derive_target_key key))] 200),
             w3)
          else
            (inl (Json [("message", JString "Image resizing failed.")] 500),
             w3)
      end
  end.
Proof.
  unfold upload_image, bind, try_except, datetime_now, s3_upload_fileobj,
    print, sleep, requests_post, ret, order, source_key_of.
  cbn. destruct (fault_at w (calls w)); cbn; [reflexivity|].
  destruct (fault_at w (S (calls w))); cbn; [reflexivity|].
  by destruct (gateway w _ =? 200)%Z.
Qed.

(** A run of [check_resized_image], step by step: the three heads are the
    network calls [calls w], [S (calls w)] and [S (S (calls w))]; the
    first exception ends the run, as [{exists: false}] if it is a
    [ClientError] and as itself otherwise. *)
Lemma check_resized_image_run (resized_key : string) (w : world) :
  let source_key := derive_source_key resized_key in
  let n := calls w in
  let w1 := count_call (emit (EvHead (TARGET_BUCKET cfg) resized_key) w) in
  let w2 := count_call (emit (EvHead (SOURCE_BUCKET cfg) source_key) w1) in
  let w3 := count_call (emit (EvHead (TARGET_BUCKET cfg) resized_key) w2) in
  let caught (e : exn) : response + exn :=
    if is_ClientError e then inl (Json [("exists", JBool false)] 200)
    else inr e in
  check_resized_image cfg resized_key w =
  match head_result w n (TARGET_BUCKET cfg) resized_key with
  | inr e => (caught e, w1)
  | inl _ =>
      match head_result w (S n) (SOURCE_BUCKET cfg) source_key with
      | inr e => (caught e, w2)
      | inl original_obj =>
          match head_result w (S (S n)) (TARGET_BUCKET cfg) resized_key with
          | inr e => (caught e, w3)
          | inl resized_obj =>
              (inl (Json [("exists", JBool true);
                          ("original_size",
                           JInt (ContentLength original_obj));
                          ("resized_size",
                           JInt (ContentLength resized_obj))] 200), w3)
          end
      end
  end.
Proof.
  unfold check_resized_image, bind, try_except, s3_head_object, ret.
  cbn.
  destruct (head_result w (calls w) _ _) as [?|e]; cbn;
    [|by destruct (is_ClientError e)].
  change (head_result (count_call (emit ?ev w)) ?i) with (head_result w i).
  destruct (head_result w (S (calls w)) _ _) as [?|e]; cbn;
    [|by destruct (is_ClientError e)].
  change (head_result (count_call (emit ?ev1 (count_call (emit ?ev2 w)))) ?i)
    with (head_result w i).
  destruct (head_result w (S (S (calls w))) _ _) as [?|e]; cbn;
    [|by destruct (is_ClientError e)].
  reflexivity.
Qed.

Lemma events_of_eq {A} (m : M A) (w : world) (evs : list event) :
  trace (snd (m w)) = (trace w ++ evs)%list -> events_of m w = evs.
Proof. unfold events_of. intros ->. apply drop_app_length. Qed.

(** The events of a run of [upload_image]: the upload, and after a
    successful upload the message, the sleep and the post. *)
Lemma upload_image_events (req : upload_request) (w : world) :
  events_of (upload_image cfg req) w =
  EvUpload (SOURCE_BUCKET cfg)
    (source_key_of (clock w) (filename (file req)))
    (content (file req))
  :: match fault_at w (calls w) with
     | Some _ => []
     | None =>
         [EvPrint "Image uploaded successfully.";
          EvSleep 5;
          EvPost (API_GATEWAY_URL cfg) (order cfg (clock w) req)]
     end.
Proof.
  apply events_of_eq. rewrite upload_image_run.
  destruct (fault_at w (calls w)); [reflexivity|].
  destruct (fault_at w (S (calls w))); [|destruct (gateway w _ =? 200)%Z];
    cbn; by rewrite <- !app_assoc.
Qed.

(** The source bucket after a run of [upload_image] in which the upload
    went through. *)
Lemma upload_image_stages (req : upload_request) (w : world) :
  fault_at w (calls w) = None ->
  objects (snd (upload_image cfg req w))
  = <[(SOURCE_BUCKET cfg, source_key_of (clock w) (filename (file req)))
      := content (file req)]> (objects w).
Proof.
  intros H. rewrite upload_image_run, H.
  destruct (fault_at w (S (calls w))); [|destruct (gateway w _ =? 200)%Z];
    reflexivity.
Qed.

(** The events of a run of [check_resized_image]: one head, and one more
    after each head that succeeded, up to three. *)
Lemma check_resized_image_events (resized_key : string) (w : world) :
  events_of (check_resized_image cfg resized_key) w =
  EvHead (TARGET_BUCKET cfg) resized_key
  :: match head_result w (calls w) (TARGET_BUCKET cfg) resized_key with
     | inr _ => []
     | inl _ =>
         EvHead (SOURCE_BUCKET cfg) (derive_source_key resized_key)
         :: match head_result w (S (calls w)) (SOURCE_BUCKET cfg)
                    (derive_source_key resized_key) with
            | inr _ => []
            | inl _ => [EvHead (TARGET_BUCKET cfg) resized_key]
            end
     end.
Proof.
  apply events_of_eq. rewrite check_resized_image_run.
  destruct (head_result w (calls w) _ _); [|reflexivity].
  destruct (head_result w (S (calls w)) _ _);
    [|cbn; by rewrite <- !app_assoc].
  destruct (head_result w (S (S (calls w))) _ _);
    cbn; by rewrite <- !app_assoc.
Qed.

(** No handler writes to the buckets while checking. *)
Lemma check_resized_image_objects (resized_key : string) (w : world) :
  objects (snd (check_resized_image cfg resized_key w)) = objects w.
Proof.
  rewrite check_resized_image_run.
  destruct (head_result w (calls w) _ _); [|reflexivity].
  destruct (head_result w (S (calls w)) _ _); [|reflexivity].
  by destruct (head_result w (S (S (calls w))) _ _).
Qed.

(** A run of [upload_image] whose upload goes through makes two network
    calls, and leaves the faults to come as they were. *)
Lemma upload_image_calls (req : upload_request) (w : world) :
  fault_at w (calls w) = None ->
  calls (snd (upload_image cfg req w)) = S (S (calls w))
  /\ fault_at (snd (upload_image cfg req w)) = fault_at w.
Proof.
  intros H. rewrite upload_image_run, H.
  destruct (fault_at w (S (calls w))); [|destruct (gateway w _ =? 200)%Z];
    by split.
Qed.

(** The complete case: when the three heads succeed, [check_resized_image]
    reports the length of the object under the key it derives in the
    source bucket and the length of the object under the resized key in
    the target bucket. *)
Lemma check_resized_image_complete (resized_key : string) (w : world)
    (original resized : list Byte.byte) :
  fault_at w (calls w) = None ->
  fault_at w (S (calls w)) = None ->
  fault_at w (S (S (calls w))) = None ->
  objects w !! (TARGET_BUCKET cfg, resized_key) = Some resized ->
  objects w !! (SOURCE_BUCKET cfg, derive_source_key resized_key)
  = Some original ->
  fst (check_resized_image cfg resized_key w)
  = inl (Json [("exists", JBool true);
               ("original_size", JInt (Z.of_nat (length original)));
               ("resized_size", JInt (Z.of_nat (length resized)))] 200).
Proof.
  intros F1 F2 F3 Ht Hs. rewrite check_resized_image_run.
  unfold head_result. by rewrite F1, F2, F3, Ht, Hs.
Qed.

(** From submit to check: after an upload that went through, of a file
    whose extension does not hold ["resized-"], and once an object is
    under the resized key in the target bucket, with no fault after the
    upload, [check_resized_image] reports the length of the
    uploaded file and the length of that object. *)
Lemma submit_then_check (req : upload_request) (w : world)
    (resized : list Byte.byte) :
  let key := source_key_of (clock w) (filename (file req)) in
  let w1 := snd (upload_image cfg req w) in
  let w2 := store (TARGET_BUCKET cfg) (derive_target_key key) resized w1 in
  PyStr.occurs "resized-" (extension_of (filename (file req))) = false ->
  fault_at w (calls w) = None ->
  (forall i : nat, (calls w < i)%nat -> fault_at w i = None) ->
  fst (check_resized_image cfg (derive_target_key key) w2)
  = inl (Json [("exists", JBool true);
               ("original_size",
                JInt (Z.of_nat (length (content (file req)))));
               ("resized_size", JInt (Z.of_nat (length resized)))] 200).
Proof.
  intros key w1 w2 Hm F0 F.
  destruct (upload_image_calls req w F0) as [Hc Hf].
  assert (Hk : derive_source_key (derive_target_key key) = key)
    by (by apply source_key_roundtrip_iff).
  subst w2 w1. unfold store.
  apply check_resized_image_complete; cbn [fault_at calls objects].
  - rewrite Hc, Hf. apply F. lia.
  - rewrite Hc, Hf. apply F. lia.
  - rewrite Hc, Hf. apply F. lia.
  - apply lookup_insert_eq.
  - rewrite Hk, lookup_insert_ne.
    + rewrite upload_image_stages by done. apply lookup_insert_eq.
    + intros E. apply (f_equal snd) in E. cbn [snd] in E.
      by apply derive_target_key_neq in E.
Qed.

(** The decorator lets a logged-in session through to the handler, and
    turns any other away before the handler does anything. *)
Lemma login_required_logged_in (f : M response) (session : gset string) :
  "user_id" ∈ session -> login_required f session = f.
Proof. intros H. unfold login_required. by rewrite decide_True. Qed.

Lemma login_required_anonymous (f : M response) (session : gset string)
    (w : world) :
  "user_id" ∉ session ->
  login_required f session w
  = (inl (Redirect "login"),
     emit (EvFlash "You need to log in first." "danger") w).
Proof. intros H. unfold login_required. by rewrite decide_False. Qed.

End Runs.


(** * The claims *)

(** ** Submitting *)

(** C1, as stated, fails: a submit whose trigger is accepted does sleep.
    Stated for every run of [upload_image] that answers with status 200,
    the absence of any sleep among its events is refuted by the upload of
    a ten-byte [cat.png] into empty buckets. *)
Lemma submit_without_sleep_refuted :
  ~ (forall (cfg : config) (req : upload_request) (w : world)
            (fields : list (string * json_value)),
        fst (upload_image cfg req w) = inl (Json fields 200) ->
        forall n : nat, ~ In (EvSleep n) (events_of (upload_image cfg req) w)).
Proof.
  intros H.
  apply (H Scenario.cfg (Scenario.png "cat.png" 10 100 100)
           (Scenario.fresh 200 Scenario.no_fault) _ eq_refl 5%nat).
  vm_compute. tauto.
Qed.

(** C1, amended: when the upload goes through and the trigger endpoint
    answers 200, [upload_image] answers with the two URLs and the resized
    key, and what it did is exactly: the upload, the message, a sleep of
    five seconds, the post.  Nothing follows the post, but the fixed sleep
    is there, between the upload and the post. *)
Theorem upload_image_accepted (cfg : config) (req : upload_request)
    (w : world) :
  fault_at w (calls w) = None ->
  fault_at w (S (calls w)) = None ->
  gateway w (order cfg (clock w) req) = 200%Z ->
  let key := source_key_of (clock w) (filename (file req)) in
  fst (upload_image cfg req w) =
    inl (Json
           [("original_url",
             JString ("https://" +:+ SOURCE_BUCKET cfg +:+
                      ".s3.amazonaws.com/" +:+ key));
            ("resized_url",
             JString ("https://" +:+ TARGET_BUCKET cfg +:+
                      ".s3.amazonaws.com/" +:+ derive_target_key key));
            ("resized_key", JString (derive_target_key key))] 200)
  /\ events_of (upload_image cfg req) w =
      [EvUpload (SOURCE_BUCKET cfg) key (content (file req));
       EvPrint "Image uploaded successfully.";
       EvSleep 5;
       EvPost (API_GATEWAY_URL cfg) (order cfg (clock w) req)].
Proof.
  intros H1 H2 H3 key. split.
  - by rewrite upload_image_run, H1, H2, H3.
  - by rewrite upload_image_events, H1.
Qed.

(** C1, amended, on the upload of a ten-byte [cat.png] into empty buckets,
    with a gateway that answers 200. *)
Lemma upload_image_accepted_witness :
  let w := Scenario.fresh 200 Scenario.no_fault in
  let req := Scenario.png "cat.png" 10 100 100 in
  fault_at w (calls w) = None /\
  fault_at w (S (calls w)) = None /\
  gateway w (order Scenario.cfg (clock w) req) = 200%Z /\
  fst (upload_image Scenario.cfg req w) =
    inl (Json
           [("original_url",
             JString "https://uploads.s3.amazonaws.com/20240101120000.png");
            ("resized_url",
             JString
               "https://resized.s3.amazonaws.com/resized-20240101120000.png");
            ("resized_key", JString "resized-20240101120000.png")] 200).
Proof.
  intros w req.
  split; [reflexivity|]. split; [reflexivity|]. split; [reflexivity|].
  exact (proj1 (upload_image_accepted Scenario.cfg req w
                  eq_refl eq_refl eq_refl)).
Defined.

(** C2, as stated, fails: two uploads of different files, read off the
    clock at different microseconds of the same second, with the same
    extension, get one source key. *)
Lemma source_key_distinct_refuted :
  ~ (forall (now1 now2 : datetime) (file1 file2 : uploaded_file),
        (now1, file1) <> (now2, file2) ->
        source_key_of now1 (filename file1)
        <> source_key_of now2 (filename file2)).
Proof.
  intros H.
  apply (H (Scenario.noon 0) (Scenario.noon 500)
           {| filename := "cat.png"; content := Scenario.zeros 10 |}
           {| filename := "dog.png"; content := Scenario.zeros 20 |}).
  - intros E. by injection E.
  - reflexivity.
Qed.

(** C2, amended: the source keys of two uploads are distinct exactly when
    the two readings of the clock are not within the same second or the
    two file names have different extensions. *)
Theorem source_key_distinct_iff (now1 now2 : datetime)
    (filename1 filename2 : string) :
  valid_datetime now1 -> valid_datetime now2 ->
  source_key_of now1 filename1 <> source_key_of now2 filename2
  <-> ~ (same_second now1 now2
         /\ extension_of filename1 = extension_of filename2).
Proof.
  intros V1 V2. by rewrite (source_key_of_eq_iff _ _ _ _ V1 V2).
Qed.

(** C2, amended, on two uploads of [cat.png] one second apart. *)
Lemma source_key_distinct_iff_witness :
  valid_datetime (Scenario.noon 0) /\
  valid_datetime
    {| year := 2024; month := 1; day := 1;
       hour := 12; minute := 0; second := 1; microsecond := 0 |} /\
  source_key_of (Scenario.noon 0) "cat.png"
  <> source_key_of
       {| year := 2024; month := 1; day := 1;
          hour := 12; minute := 0; second := 1; microsecond := 0 |}
       "cat.png".
Proof.
  assert (V1 : valid_datetime (Scenario.noon 0)).
  { unfold valid_datetime. simpl. repeat split; lia. }
  assert (V2 : valid_datetime
                 {| year := 2024; month := 1; day := 1;
                    hour := 12; minute := 0; second := 1;
                    microsecond := 0 |}).
  { unfold valid_datetime. simpl. repeat split; lia. }
  split; [exact V1|]. split; [exact V2|].
  apply (source_key_distinct_iff _ _ _ _ V1 V2).
  intros [(_ & _ & _ & _ & _ & Hs) _]. discriminate Hs.
Defined.

(** C3: the round trip of the key naming scheme breaks on a source key
    that [upload_image] makes: a file named [resized-photo] (no dot, so
    the whole name is the extension) uploaded at 2024-01-01 12:00:00 gets
    the source key [20240101120000.resized-photo]; the source key derived
    back from its target key is [20240101120000.photo]. *)
Theorem derive_roundtrip_breaks :
  let k := source_key_of (Scenario.noon 0) "resized-photo" in
  k = "20240101120000.resized-photo"
  /\ derive_target_key k = "resized-20240101120000.resized-photo"
  /\ derive_source_key (derive_target_key k) = "20240101120000.photo"
  /\ derive_source_key (derive_target_key k) <> k.
Proof. repeat split. discriminate. Qed.

(** C4, as stated, fails: with width 0, the upload and the trigger are
    both called, and the answer is the one of a successful submit. *)
Lemma submit_validation_refuted :
  ~ (forall (cfg : config) (req : upload_request) (w : world),
        (width req <= 0 \/ height req <= 0)%Z ->
        (forall fields, fst (upload_image cfg req w) <> inl (Json fields 200))
        /\ (forall ev, In ev (events_of (upload_image cfg req) w) ->
                       is_network_call ev = false)).
Proof.
  intros H.
  destruct (H Scenario.cfg (Scenario.png "cat.png" 10 0 100)
              (Scenario.fresh 200 Scenario.no_fault)) as [Hr _].
  - left. reflexivity.
  - by eapply Hr.
Qed.

(** C4, amended: [upload_image] looks at neither width nor height.
    Whatever they are, the upload is called first; when it goes through,
    the trigger is posted with the width and the height as given, and
    the answer depends on them through the trigger endpoint only. *)
Theorem upload_image_any_dimensions (cfg : config) (req : upload_request)
    (w : world) :
  fault_at w (calls w) = None ->
  events_of (upload_image cfg req) w =
    [EvUpload (SOURCE_BUCKET cfg)
       (source_key_of (clock w) (filename (file req))) (content (file req));
     EvPrint "Image uploaded successfully.";
     EvSleep 5;
     EvPost (API_GATEWAY_URL cfg)
       {| tp_source_key := source_key_of (clock w) (filename (file req));
          tp_width := width req;
          tp_height := height req;
          tp_source_bucket := SOURCE_BUCKET cfg;
          tp_target_bucket := TARGET_BUCKET cfg |}]
  /\ forall req' : upload_request,
       file req' = file req ->
       gateway w (order cfg (clock w) req') = gateway w (order cfg (clock w) req) ->
       fst (upload_image cfg req' w) = fst (upload_image cfg req w).
Proof.
  intros H1. split.
  - by rewrite upload_image_events, H1.
  - intros req' Hf Hg. rewrite !upload_image_run, H1, Hf, Hg.
    destruct (fault_at w (S (calls w))); [reflexivity|].
    by destruct (gateway w _ =? 200)%Z.
Qed.

(** C4, amended, on an upload with width 0 and height -3. *)
Lemma upload_image_any_dimensions_witness :
  let w := Scenario.fresh 200 Scenario.no_fault in
  let req := Scenario.png "cat.png" 2 0 (-3) in
  fault_at w (calls w) = None /\
  events_of (upload_image Scenario.cfg req) w =
    [EvUpload "uploads" "20240101120000.png" [Byte.x00; Byte.x00];
     EvPrint "Image uploaded successfully.";
     EvSleep 5;
     EvPost "https://api.example.com/resize"
       {| tp_source_key := "20240101120000.png";
          tp_width := 0;
          tp_height := -3;
          tp_source_bucket := "uploads";
          tp_target_bucket := "resized" |}].
Proof.
  intros w req. split; [reflexivity|].
  exact (proj1 (upload_image_any_dimensions Scenario.cfg req w eq_refl)).
Defined.

(** C6: when the post does not reach the endpoint, the exception that
    [requests.post] raises leaves [upload_image] as it is: no response is
    made of it. *)
Theorem upload_image_trigger_unreachable (cfg : config)
    (req : upload_request) (w : world) (e : exn) :
  fault_at w (calls w) = None ->
  fault_at w (S (calls w)) = Some e ->
  fst (upload_image cfg req w) = inr e.
Proof. intros H1 H2. by rewrite upload_image_run, H1, H2. Qed.

(** C6 on an upload whose post is refused a connection. *)
Lemma upload_image_trigger_unreachable_witness :
  let e := OtherException "ConnectionError" "Connection refused" in
  let w := Scenario.fresh 200 (Scenario.fault_only 1 e) in
  fault_at w (calls w) = None /\
  fault_at w (S (calls w)) = Some e /\
  fst (upload_image Scenario.cfg (Scenario.png "cat.png" 10 100 100) w)
  = inr e.
Proof.
  intros e w. split; [reflexivity|]. split; [reflexivity|].
  exact (upload_image_trigger_unreachable Scenario.cfg _ w e
           eq_refl eq_refl).
Defined.

(** C9: when the upload goes through and the trigger endpoint answers
    with a status other than 200, [upload_image] answers 500 with the
    message of a failed resizing, and the source bucket holds the
    uploaded file under the source key. *)
Theorem upload_image_trigger_rejected (cfg : config) (req : upload_request)
    (w : world) :
  fault_at w (calls w) = None ->
  fault_at w (S (calls w)) = None ->
  gateway w (order cfg (clock w) req) <> 200%Z ->
  fst (upload_image cfg req w)
  = inl (Json [("message", JString "Image resizing failed.")] 500)
  /\ objects (snd (upload_image cfg req w))
       !! (SOURCE_BUCKET cfg, source_key_of (clock w) (filename (file req)))
     = Some (content (file req)).
Proof.
  intros H1 H2 H3. split.
  - rewrite upload_image_run, H1, H2.
    by destruct (Z.eqb_spec (gateway w (order cfg (clock w) req)) 200).
  - rewrite upload_image_stages by done. apply lookup_insert_eq.
Qed.

(** C9 on an upload to which the gateway answers 503. *)
Lemma upload_image_trigger_rejected_witness :
  let w := Scenario.fresh 503 Scenario.no_fault in
  let req := Scenario.png "cat.png" 3 100 100 in
  fault_at w (calls w) = None /\
  fault_at w (S (calls w)) = None /\
  gateway w (order Scenario.cfg (clock w) req) <> 200%Z /\
  fst (upload_image Scenario.cfg req w)
  = inl (Json [("message", JString "Image resizing failed.")] 500) /\
  objects (snd (upload_image Scenario.cfg req w))
    !! ("uploads", "20240101120000.png")
  = Some [Byte.x00; Byte.x00; Byte.x00].
Proof.
  intros w req.
  assert (H3 : gateway w (order Scenario.cfg (clock w) req) <> 200%Z)
    by discriminate.
  split; [reflexivity|]. split; [reflexivity|]. split; [exact H3|].
  exact (upload_image_trigger_rejected Scenario.cfg req w
           eq_refl eq_refl H3).
Defined.

(** ** Checking *)

(** The scenario of the specification: 1024 bytes staged under
    [20240101120000.png], 256 bytes under the resized key. *)
Example check_after_transform :
  let w1 :=
    snd (upload_image Scenario.cfg (Scenario.png "cat.png" 1024 100 100)
           (Scenario.fresh 200 Scenario.no_fault)) in
  fst (check_resized_image Scenario.cfg "resized-20240101120000.png" w1)
  = inl (Json [("exists", JBool false)] 200)
  /\ fst (check_resized_image Scenario.cfg "resized-20240101120000.png"
            (Scenario.transform_done "resized-20240101120000.png" 256 w1))
     = inl (Json [("exists", JBool true);
                  ("original_size", JInt 1024);
                  ("resized_size", JInt 256)] 200).
Proof. split; vm_compute; reflexivity. Qed.

(** C5, as stated, fails: a head of the target key that is refused for
    lack of permission (a [ClientError] with code 403, not the 404 of a
    missing object) makes [check_resized_image] answer [{exists: false}]. *)
Lemma check_store_error_refuted :
  ~ (forall (cfg : config) (resized_key : string) (w : world) (e : exn),
        head_result w (calls w) (TARGET_BUCKET cfg) resized_key = inr e ->
        is_not_found e = false ->
        fst (check_resized_image cfg resized_key w)
        <> inl (Json [("exists", JBool false)] 200)).
Proof.
  intros H.
  apply (H Scenario.cfg "resized-20240101120000.png"
           (Scenario.fresh 200
              (Scenario.fault_only 0 (ClientError "403" "Forbidden")))
           (ClientError "403" "Forbidden"));
    reflexivity.
Qed.

(** C5, amended: whatever exception the head of the target key raises,
    [check_resized_image] answers [{exists: false}] if it is a
    [ClientError] (the 404 of a missing object and the 403 of a refused
    one alike) and lets it through, unhandled, if it is not. *)
Theorem check_resized_image_target_head_raises (cfg : config)
    (resized_key : string) (w : world) (e : exn) :
  head_result w (calls w) (TARGET_BUCKET cfg) resized_key = inr e ->
  fst (check_resized_image cfg resized_key w)
  = if is_ClientError e then inl (Json [("exists", JBool false)] 200)
    else inr e.
Proof. intros H. by rewrite check_resized_image_run, H. Qed.

(** C5, amended, on a head that cannot connect to the store. *)
Lemma check_resized_image_target_head_raises_witness :
  let e := OtherException "EndpointConnectionError" "Could not connect" in
  let w := Scenario.fresh 200 (Scenario.fault_only 0 e) in
  head_result w (calls w) (TARGET_BUCKET Scenario.cfg)
    "resized-20240101120000.png" = inr e /\
  fst (check_resized_image Scenario.cfg "resized-20240101120000.png" w)
  = inr e.
Proof.
  intros e w. split; [reflexivity|].
  exact (check_resized_image_target_head_raises Scenario.cfg
           "resized-20240101120000.png" w e eq_refl).
Defined.

(** C7: a file named [resized-photo], of 1024 bytes, is submitted at
    2024-01-01 12:00:00 and accepted; the transform then writes 256 bytes
    under the resized key that [upload_image] answered.  Both objects are
    in their buckets, and [check_resized_image] on that resized key
    answers [{exists: false}]: it looks for the source object under
    [20240101120000.photo]. *)
Theorem check_misses_staged_source :
  let req := Scenario.png "resized-photo" 1024 100 100 in
  let w0 := Scenario.fresh 200 Scenario.no_fault in
  let source_key := "20240101120000.resized-photo" in
  let resized_key := "resized-20240101120000.resized-photo" in
  let w1 := snd (upload_image Scenario.cfg req w0) in
  let w2 := Scenario.transform_done resized_key 256 w1 in
  fst (upload_image Scenario.cfg req w0)
  = inl (Json
           [("original_url",
             JString ("https://uploads.s3.amazonaws.com/" +:+ source_key));
            ("resized_url",
             JString ("https://resized.s3.amazonaws.com/" +:+ resized_key));
            ("resized_key", JString resized_key)] 200)
  /\ objects w2 !! ("uploads", source_key) = Some (Scenario.zeros 1024)
  /\ objects w2 !! ("resized", resized_key) = Some (Scenario.zeros 256)
  /\ derive_source_key resized_key = "20240101120000.photo"
  /\ fst (check_resized_image Scenario.cfg resized_key w2)
     = inl (Json [("exists", JBool false)] 200).
Proof. repeat split; vm_compute; reflexivity. Qed.

(** C8: while there is no object under the resized key in the target
    bucket, a head that reaches the store makes [check_resized_image]
    answer [{exists: false}], a response and not an exception, after
    that one head. *)
Theorem check_resized_image_pending (cfg : config) (resized_key : string)
    (w : world) :
  objects w !! (TARGET_BUCKET cfg, resized_key) = None ->
  fault_at w (calls w) = None ->
  fst (check_resized_image cfg resized_key w)
  = inl (Json [("exists", JBool false)] 200)
  /\ events_of (check_resized_image cfg resized_key) w
     = [EvHead (TARGET_BUCKET cfg) resized_key].
Proof.
  intros Ho Hf.
  assert (Hh : head_result w (calls w) (TARGET_BUCKET cfg) resized_key
               = inr (ClientError "404" "Not Found")).
  { unfold head_result. by rewrite Hf, Ho. }
  split.
  - by rewrite check_resized_image_run, Hh.
  - by rewrite check_resized_image_events, Hh.
Qed.

(** C8 on a check right after an accepted upload. *)
Lemma check_resized_image_pending_witness :
  let w :=
    snd (upload_image Scenario.cfg (Scenario.png "cat.png" 4 100 100)
           (Scenario.fresh 200 Scenario.no_fault)) in
  objects w !! (TARGET_BUCKET Scenario.cfg, "resized-20240101120000.png")
  = None /\
  fault_at w (calls w) = None /\
  fst (check_resized_image Scenario.cfg "resized-20240101120000.png" w)
  = inl (Json [("exists", JBool false)] 200).
Proof.
  intros w.
  assert (Ho : objects w
                 !! (TARGET_BUCKET Scenario.cfg, "resized-20240101120000.png")
               = None) by (vm_compute; reflexivity).
  split; [exact Ho|]. split; [reflexivity|].
  exact (proj1 (check_resized_image_pending Scenario.cfg
                  "resized-20240101120000.png" w Ho eq_refl)).
Defined.

(** C10: when the head of the target key succeeds and the head of the
    source key raises a [ClientError] (the object is missing, or access
    to it is refused), [check_resized_image] answers [{exists: false}],
    with no size. *)
Theorem check_resized_image_source_head_fails (cfg : config)
    (resized_key : string) (w : world) (resized_obj : object_metadata)
    (code message : string) :
  head_result w (calls w) (TARGET_BUCKET cfg) resized_key = inl resized_obj ->
  head_result w (S (calls w)) (SOURCE_BUCKET cfg)
    (derive_source_key resized_key) = inr (ClientError code message) ->
  fst (check_resized_image cfg resized_key w)
  = inl (Json [("exists", JBool false)] 200).
Proof. intros H1 H2. by rewrite check_resized_image_run, H1, H2. Qed.

(** C10 on a target bucket that holds the resized object while the source
    bucket is empty. *)
Lemma check_resized_image_source_head_fails_witness :
  let w :=
    Scenario.transform_done "resized-20240101120000.png" 2
      (Scenario.fresh 200 Scenario.no_fault) in
  head_result w (calls w) (TARGET_BUCKET Scenario.cfg)
    "resized-20240101120000.png" = inl {| ContentLength := 2 |} /\
  head_result w (S (calls w)) (SOURCE_BUCKET Scenario.cfg)
    (derive_source_key "resized-20240101120000.png")
  = inr (ClientError "404" "Not Found") /\
  fst (check_resized_image Scenario.cfg "resized-20240101120000.png" w)
  = inl (Json [("exists", JBool false)] 200).
Proof.
  intros w.
  assert (H1 : head_result w (calls w) (TARGET_BUCKET Scenario.cfg)
                 "resized-20240101120000.png" = inl {| ContentLength := 2 |})
    by (vm_compute; reflexivity).
  assert (H2 : head_result w (S (calls w)) (SOURCE_BUCKET Scenario.cfg)
                 (derive_source_key "resized-20240101120000.png")
               = inr (ClientError "404" "Not Found"))
    by (vm_compute; reflexivity).
  split; [exact H1|]. split; [exact H2|].
  exact (check_resized_image_source_head_fails Scenario.cfg
           "resized-20240101120000.png" w _ _ _ H1 H2).
Defined.

(** * Further properties of the workflow *)

(** ** Key naming *)

(** X1 (lines 150 and 163): the source key that [check_resized_image]
    derives from a resized key made by [upload_image] is the original
    source key exactly when ["resized-"] does not occur in it. *)
Theorem key_roundtrip_iff (k : string) :
  derive_source_key (derive_target_key k) = k
  <-> PyStr.occurs "resized-" k = false.
Proof. apply derive_roundtrip_iff. Qed.

(** X2 (lines 124-126, 150 and 163): for the key of an uploaded file, the
    round trip holds exactly when ["resized-"] does not occur in the
    extension of the file name; the timestamp never stands in the way. *)
Theorem uploaded_key_roundtrip_iff (now : datetime) (name : string) :
  derive_source_key (derive_target_key (source_key_of now name))
  = source_key_of now name
  <-> PyStr.occurs "resized-" (extension_of name) = false.
Proof. apply source_key_roundtrip_iff. Qed.

(** X3 (line 150): two source keys have the same resized key only if they
    are the same, and a resized key is never its own source key. *)
Theorem derive_target_key_injective (k1 k2 : string) :
  (derive_target_key k1 = derive_target_key k2 <-> k1 = k2)
  /\ derive_target_key k1 <> k1.
Proof.
  split; [split|].
  - apply derive_target_key_inj.
  - by intros ->.
  - apply derive_target_key_neq.
Qed.

(** X4 (lines 124-126): a source key is fourteen digits, a dot, and an
    extension without a dot; so it holds exactly one dot, at index 14. *)
Theorem source_key_shape (now : datetime) (name : string) :
  source_key_of now name
  = timestamp_of now +:+ "." +:+ extension_of name
  /\ String.length (timestamp_of now) = 14%nat
  /\ (forall c, In c (PyStr.chars (timestamp_of now)) ->
        (48 <= nat_of_ascii c <= 57)%nat)
  /\ ~ In "."%char (PyStr.chars (extension_of name)).
Proof.
  split; [reflexivity|]. split; [|split].
  - rewrite timestamp_of_unfold, !length_app, !zero_padded_length.
    reflexivity.
  - apply timestamp_of_digits.
  - apply extension_of_no_dot.
Qed.

(** X5 (line 125): the extension of a file name that ends with a dot and a
    text without a dot is that text. *)
Theorem extension_of_dotted (stem ext : string) :
  ~ In "."%char (PyStr.chars ext) ->
  extension_of (stem +:+ "." +:+ ext) = ext.
Proof.
  intros Hext. unfold extension_of, PyStr.rsplit1_last.
  assert (Hnone : PyStr.after_last "." ext = None).
  { clear stem. induction ext as [|c ext IH]; [reflexivity|].
    simpl. rewrite IH by (intros H; apply Hext; by right).
    destruct (Ascii.eqb_spec c "."); [|reflexivity].
    subst c. exfalso. apply Hext. by left. }
  assert (Hdot : PyStr.after_last "." ("." +:+ ext) = Some ext).
  { change ("." +:+ ext) with (String "." ext). simpl. by rewrite Hnone. }
  induction stem as [|c stem IH].
  - rewrite app_empty. by rewrite Hdot.
  - rewrite app_cons. simpl.
    destruct (PyStr.after_last "." (stem +:+ "." +:+ ext)) as [t|] eqn:E.
    + exact IH.
    + exfalso. clear IH. revert E. clear.
      induction stem as [|d stem IH]; intros E.
      * rewrite app_empty in E. change ("." +:+ ext) with (String "." ext) in E.
        simpl in E. by destruct (PyStr.after_last "." ext).
      * rewrite app_cons in E. simpl in E.
        destruct (PyStr.after_last "." (stem +:+ "." +:+ ext)); [done|].
        by apply IH.
Qed.

(** X5, on [a.tar.gz]. *)
Lemma extension_of_dotted_witness :
  ~ In "."%char (PyStr.chars "gz") /\ extension_of ("a.tar" +:+ "." +:+ "gz") = "gz".
Proof.
  assert (H : ~ In "."%char (PyStr.chars "gz")).
  { intros [H|[H|[]]]; discriminate H. }
  split; [exact H|]. exact (extension_of_dotted "a.tar" "gz" H).
Defined.

(** X6 (line 125): a file name without a dot is its own extension, whole. *)
Theorem extension_of_undotted (name : string) :
  ~ In "."%char (PyStr.chars name) -> extension_of name = name.
Proof.
  intros H. unfold extension_of, PyStr.rsplit1_last.
  destruct (PyStr.after_last "." name) as [t|] eqn:E; [|reflexivity].
  exfalso. revert t E. induction name as [|c name IH]; intros t E.
  - discriminate E.
  - simpl in E. destruct (PyStr.after_last "." name) as [u|].
    + apply (IH (fun Hin => H (or_intror Hin)) u eq_refl).
    + destruct (Ascii.eqb_spec c "."); [|discriminate E].
      apply H. by left.
Qed.

(** X6, on [README]. *)
Lemma extension_of_undotted_witness :
  ~ In "."%char (PyStr.chars "README") /\ extension_of "README" = "README".
Proof.
  assert (H : ~ In "."%char (PyStr.chars "README")).
  { intros H. repeat (destruct H as [H|H]; [discriminate H|]). destruct H. }
  split; [exact H|]. exact (extension_of_undotted "README" H).
Defined.

(** ** Uploading *)

(** X7 (lines 129-134): when the upload raises, whatever the exception,
    [upload_image] answers 500 with the message of a failed upload and the
    text of the exception; it neither sleeps nor posts, and the buckets
    are as they were. *)
Theorem upload_image_upload_fails (cfg : config) (req : upload_request)
    (w : world) (e : exn) :
  fault_at w (calls w) = Some e ->
  fst (upload_image cfg req w)
  = inl (Json [("message", JString "File upload failed.");
               ("error", JString (str e))] 500)
  /\ events_of (upload_image cfg req) w
     = [EvUpload (SOURCE_BUCKET cfg)
          (source_key_of (clock w) (filename (file req)))
          (content (file req))]
  /\ objects (snd (upload_image cfg req w)) = objects w.
Proof.
  intros H. repeat split.
  - by rewrite upload_image_run, H.
  - by rewrite upload_image_events, H.
  - by rewrite upload_image_run, H.
Qed.

(** X7 on an upload that S3 refuses. *)
Lemma upload_image_upload_fails_witness :
  let e := ClientError "403" "Access Denied" in
  let w := Scenario.fresh 200 (Scenario.fault_only 0 e) in
  fault_at w (calls w) = Some e /\
  fst (upload_image Scenario.cfg (Scenario.png "cat.png" 2 10 10) w)
  = inl (Json [("message", JString "File upload failed.");
               ("error", JString "Access Denied")] 500).
Proof.
  intros e w. split; [reflexivity|].
  exact (proj1 (upload_image_upload_fails Scenario.cfg
                  (Scenario.png "cat.png" 2 10 10) w e eq_refl)).
Defined.

(** X8 (lines 129-146): [upload_image] touches one object at most, the one
    under the source key in the source bucket: every other object of
    every bucket is after the run as it was before, however the run
    ends. *)
Theorem upload_image_frame (cfg : config) (req : upload_request) (w : world)
    (bucket key : string) :
  (bucket, key)
  <> (SOURCE_BUCKET cfg, source_key_of (clock w) (filename (file req))) ->
  objects (snd (upload_image cfg req w)) !! (bucket, key)
  = objects w !! (bucket, key).
Proof.
  intros Hne. destruct (fault_at w (calls w)) as [e|] eqn:F.
  - by rewrite upload_image_run, F.
  - rewrite upload_image_stages by done. by apply lookup_insert_ne.
Qed.

(** X8 on an object of the target bucket. *)
Lemma upload_image_frame_witness :
  let w :=
    Scenario.transform_done "resized-old.png" 3
      (Scenario.fresh 200 Scenario.no_fault) in
  ("resized", "resized-old.png")
  <> (SOURCE_BUCKET Scenario.cfg,
      source_key_of (clock w) (filename (file (Scenario.png "cat.png" 2 1 1))))
  /\ objects (snd (upload_image Scenario.cfg (Scenario.png "cat.png" 2 1 1) w))
       !! ("resized", "resized-old.png")
     = Some (Scenario.zeros 3).
Proof.
  intros w.
  assert (Hne : ("resized", "resized-old.png")
                <> (SOURCE_BUCKET Scenario.cfg,
                    source_key_of (clock w)
                      (filename (file (Scenario.png "cat.png" 2 1 1)))))
    by discriminate.
  split; [exact Hne|].
  exact (upload_image_frame Scenario.cfg (Scenario.png "cat.png" 2 1 1) w
           "resized" "resized-old.png" Hne).
Defined.

(** X9 (lines 124-130): an upload whose store call goes through replaces
    whatever an earlier upload of the same second and the same extension
    left under its source key: that key is this upload's key, and it now
    holds this upload's bytes. *)
Theorem upload_image_overwrites (cfg : config) (req1 req2 : upload_request)
    (now1 : datetime) (w2 : world) :
  same_second now1 (clock w2) ->
  extension_of (filename (file req1)) = extension_of (filename (file req2)) ->
  fault_at w2 (calls w2) = None ->
  objects (snd (upload_image cfg req2 w2))
    !! (SOURCE_BUCKET cfg, source_key_of now1 (filename (file req1)))
  = Some (content (file req2)).
Proof.
  intros Hs He F. rewrite upload_image_stages by done.
  unfold source_key_of. rewrite (timestamp_of_same_second _ _ Hs), He.
  apply lookup_insert_eq.
Qed.

(** X9 on [cat.png] staged at microsecond 0 and [dog.png] uploaded at
    microsecond 500 of the same second. *)
Lemma upload_image_overwrites_witness :
  let req1 := Scenario.png "cat.png" 2 10 10 in
  let req2 := Scenario.png "dog.png" 3 10 10 in
  let w1 := Scenario.fresh 200 Scenario.no_fault in
  let w2 :=
    {| objects := objects (snd (upload_image Scenario.cfg req1 w1));
       gateway := fun _ => 200%Z; clock := Scenario.noon 500;
       fault_at := Scenario.no_fault; calls := 0; trace := [] |} in
  same_second (clock w1) (clock w2) /\
  extension_of (filename (file req1)) = extension_of (filename (file req2)) /\
  fault_at w2 (calls w2) = None /\
  objects w2 !! ("uploads", "20240101120000.png") = Some (Scenario.zeros 2) /\
  objects (snd (upload_image Scenario.cfg req2 w2))
    !! ("uploads", "20240101120000.png")
  = Some (Scenario.zeros 3).
Proof.
  intros req1 req2 w1 w2.
  assert (Hs : same_second (clock w1) (clock w2)) by (by repeat split).
  split; [exact Hs|]. split; [reflexivity|]. split; [reflexivity|].
  split; [vm_compute; reflexivity|].
  exact (upload_image_overwrites Scenario.cfg req1 req2 (clock w1) w2
           Hs eq_refl eq_refl).
Defined.

(** ** Checking *)

(** X10 (lines 165-175): when the store answers the three heads and holds
    an object under the resized key in the target bucket and one under
    the derived source key in the source bucket, [check_resized_image]
    reports [exists: true] with the lengths of these two objects. *)
Theorem check_resized_image_reports_sizes (cfg : config)
    (resized_key : string) (w : world) (original resized : list Byte.byte) :
  fault_at w (calls w) = None ->
  fault_at w (S (calls w)) = None ->
  fault_at w (S (S (calls w))) = None ->
  objects w !! (TARGET_BUCKET cfg, resized_key) = Some resized ->
  objects w !! (SOURCE_BUCKET cfg, derive_source_key resized_key)
  = Some original ->
  fst (check_resized_image cfg resized_key w)
  = inl (Json [("exists", JBool true);
               ("original_size", JInt (Z.of_nat (length original)));
               ("resized_size", JInt (Z.of_nat (length resized)))] 200).
Proof. apply check_resized_image_complete. Qed.

(** X10 on 1024 bytes staged and 256 bytes resized. *)
Lemma check_resized_image_reports_sizes_witness :
  let w :=
    Scenario.transform_done "resized-20240101120000.png" 256
      (snd (upload_image Scenario.cfg (Scenario.png "cat.png" 1024 100 100)
              (Scenario.fresh 200 Scenario.no_fault))) in
  fault_at w (calls w) = None /\
  fault_at w (S (calls w)) = None /\
  fault_at w (S (S (calls w))) = None /\
  objects w !! (TARGET_BUCKET Scenario.cfg, "resized-20240101120000.png")
  = Some (Scenario.zeros 256) /\
  objects w !! (SOURCE_BUCKET Scenario.cfg,
                derive_source_key "resized-20240101120000.png")
  = Some (Scenario.zeros 1024) /\
  fst (check_resized_image Scenario.cfg "resized-20240101120000.png" w)
  = inl (Json [("exists", JBool true);
               ("original_size", JInt 1024);
               ("resized_size", JInt 256)] 200).
Proof.
  intros w.
  assert (Ht : objects w
                 !! (TARGET_BUCKET Scenario.cfg, "resized-20240101120000.png")
               = Some (Scenario.zeros 256)) by (vm_compute; reflexivity).
  assert (Hs : objects w
                 !! (SOURCE_BUCKET Scenario.cfg,
                     derive_source_key "resized-20240101120000.png")
               = Some (Scenario.zeros 1024)) by (vm_compute; reflexivity).
  split; [reflexivity|]. split; [reflexivity|]. split; [reflexivity|].
  split; [exact Ht|]. split; [exact Hs|].
  exact (check_resized_image_reports_sizes Scenario.cfg
           "resized-20240101120000.png" w _ _ eq_refl eq_refl eq_refl Ht Hs).
Defined.

(** X11 (lines 124-130, 150, 163-175): from submit to check.  After an
    upload that went through, of a file whose extension does not hold
    ["resized-"], once an object is under the answered resized key in the
    target bucket and with no fault after the upload,
    [check_resized_image] reports the length of the uploaded file and the
    length of that object. *)
Theorem upload_then_check (cfg : config) (req : upload_request) (w : world)
    (resized : list Byte.byte) :
  PyStr.occurs "resized-" (extension_of (filename (file req))) = false ->
  fault_at w (calls w) = None ->
  (forall i : nat, (calls w < i)%nat -> fault_at w i = None) ->
  fst (check_resized_image cfg
         (derive_target_key (source_key_of (clock w) (filename (file req))))
         (store (TARGET_BUCKET cfg)
            (derive_target_key
               (source_key_of (clock w) (filename (file req))))
            resized (snd (upload_image cfg req w))))
  = inl (Json [("exists", JBool true);
               ("original_size",
                JInt (Z.of_nat (length (content (file req)))));
               ("resized_size", JInt (Z.of_nat (length resized)))] 200).
Proof. intros Hm F0 F. by apply submit_then_check. Qed.

(** X11 on a five-byte [holiday.jpeg] resized to two bytes. *)
Lemma upload_then_check_witness :
  let req := Scenario.png "holiday.jpeg" 5 64 64 in
  let w := Scenario.fresh 200 Scenario.no_fault in
  PyStr.occurs "resized-" (extension_of (filename (file req))) = false /\
  fault_at w (calls w) = None /\
  (forall i : nat, (calls w < i)%nat -> fault_at w i = None) /\
  fst (check_resized_image Scenario.cfg "resized-20240101120000.jpeg"
         (store "resized" "resized-20240101120000.jpeg" (Scenario.zeros 2)
            (snd (upload_image Scenario.cfg req w))))
  = inl (Json [("exists", JBool true);
               ("original_size", JInt 5);
               ("resized_size", JInt 2)] 200).
Proof.
  intros req w.
  assert (F : forall i : nat, (calls w < i)%nat -> fault_at w i = None)
    by (intros i _; reflexivity).
  split; [reflexivity|]. split; [reflexivity|]. split; [exact F|].
  exact (upload_then_check Scenario.cfg req w (Scenario.zeros 2)
           eq_refl eq_refl F).
Defined.

(** X12 (lines 165-177): [check_resized_image] ends in one of three ways:
    [{exists: false}], [{exists: true}] with two sizes, both with status
    200, or an exception that is not a [ClientError].  It never lets a
    [ClientError] out and never answers an error status. *)
Theorem check_resized_image_outcomes (cfg : config) (resized_key : string)
    (w : world) :
  fst (check_resized_image cfg resized_key w)
  = inl (Json [("exists", JBool false)] 200)
  \/ (exists original_size resized_size : Z,
        fst (check_resized_image cfg resized_key w)
        = inl (Json [("exists", JBool true);
                     ("original_size", JInt original_size);
                     ("resized_size", JInt resized_size)] 200))
  \/ (exists e : exn,
        fst (check_resized_image cfg resized_key w) = inr e
        /\ is_ClientError e = false).
Proof.
  rewrite check_resized_image_run.
  destruct (head_result w (calls w) _ _) as [?|e];
    [|destruct (is_ClientError e) eqn:E; eauto].
  destruct (head_result w (S (calls w)) _ _) as [?|e];
    [|destruct (is_ClientError e) eqn:E; eauto].
  destruct (head_result w (S (S (calls w))) _ _) as [?|e];
    [|destruct (is_ClientError e) eqn:E; eauto].
  right. left. eauto.
Qed.

(** X13 (lines 165-175): [check_resized_image] reports no result that is
    not there.  When it answers [exists: true], the target bucket holds an
    object under the resized key and the source bucket one under the
    derived source key, and the two sizes are their lengths. *)
Theorem check_resized_image_sound (cfg : config) (resized_key : string)
    (w : world) (original_size resized_size : Z) :
  fst (check_resized_image cfg resized_key w)
  = inl (Json [("exists", JBool true);
               ("original_size", JInt original_size);
               ("resized_size", JInt resized_size)] 200) ->
  exists original resized : list Byte.byte,
    objects w !! (SOURCE_BUCKET cfg, derive_source_key resized_key)
    = Some original
    /\ objects w !! (TARGET_BUCKET cfg, resized_key) = Some resized
    /\ original_size = Z.of_nat (length original)
    /\ resized_size = Z.of_nat (length resized).
Proof.
  rewrite check_resized_image_run. unfold head_result.
  destruct (fault_at w (calls w)) as [e|];
    [by destruct (is_ClientError e)|].
  destruct (objects w !! (TARGET_BUCKET cfg, resized_key)) as [resized|];
    [|done].
  destruct (fault_at w (S (calls w))) as [e|];
    [by destruct (is_ClientError e)|].
  destruct (objects w !! (SOURCE_BUCKET cfg, derive_source_key resized_key))
    as [original|]; [|done].
  destruct (fault_at w (S (S (calls w)))) as [e|];
    [by destruct (is_ClientError e)|].
  cbn. intros H. injection H as <- <-. by exists original, resized.
Qed.

(** X13 on 1024 bytes staged and 256 bytes resized. *)
Lemma check_resized_image_sound_witness :
  let w :=
    Scenario.transform_done "resized-20240101120000.png" 256
      (snd (upload_image Scenario.cfg (Scenario.png "cat.png" 1024 100 100)
              (Scenario.fresh 200 Scenario.no_fault))) in
  fst (check_resized_image Scenario.cfg "resized-20240101120000.png" w)
  = inl (Json [("exists", JBool true);
               ("original_size", JInt 1024);
               ("resized_size", JInt 256)] 200)
  /\ exists original resized : list Byte.byte,
       objects w !! (SOURCE_BUCKET Scenario.cfg,
                     derive_source_key "resized-20240101120000.png")
       = Some original
       /\ objects w
            !! (TARGET_BUCKET Scenario.cfg, "resized-20240101120000.png")
          = Some resized
       /\ 1024%Z = Z.of_nat (length original)
       /\ 256%Z = Z.of_nat (length resized).
Proof.
  intros w.
  assert (H : fst (check_resized_image Scenario.cfg
                     "resized-20240101120000.png" w)
              = inl (Json [("exists", JBool true);
                           ("original_size", JInt 1024);
                           ("resized_size", JInt 256)] 200))
    by (vm_compute; reflexivity).
  split; [exact H|].
  exact (check_resized_image_sound Scenario.cfg
           "resized-20240101120000.png" w 1024 256 H).
Defined.

(** X14 (lines 165-177): [check_resized_image] only reads.  The buckets
    are after the run as they were before; it makes between one and three
    network calls, all of them heads. *)
Theorem check_resized_image_reads_only (cfg : config) (resized_key : string)
    (w : world) :
  objects (snd (check_resized_image cfg resized_key w)) = objects w
  /\ (1 <= length (events_of (check_resized_image cfg resized_key) w) <= 3)%nat
  /\ forall ev, In ev (events_of (check_resized_image cfg resized_key) w) ->
       exists bucket key, ev = EvHead bucket key.
Proof.
  split; [apply check_resized_image_objects|].
  rewrite check_resized_image_events.
  destruct (head_result w (calls w) _ _);
    [destruct (head_result w (S (calls w)) _ _)|];
    (split; [simpl; lia|]);
    intros ev Hin; simpl in Hin;
    repeat (destruct Hin as [<-|Hin]; [eauto|]); destruct Hin.
Qed.

(** * Properties of accounts and sessions *)

Section SiteRuns.

Import Site.

Variable P : platform.

Lemma logged_in_decide (s : site) :
  logged_in s -> bool_decide (is_Some (cookie s !! "user_id")) = true.
Proof. intros H. by apply bool_decide_eq_true. Qed.

Lemma anonymous_decide (s : site) :
  ~ logged_in s -> bool_decide (is_Some (cookie s !! "user_id")) = false.
Proof. intros H. by apply bool_decide_eq_false. Qed.

(** The decorator, step by step. *)
Lemma login_required_run (f : St view) (s : site) :
  login_required f s =
  if bool_decide (is_Some (cookie s !! "user_id")) then f s
  else (inl (Plain (Redirect "login")),
        with_net (emit (EvFlash "You need to log in first." "danger") (net s))
          s).
Proof.
  unfold login_required, bind, session_has, lift, flash, ret. cbn.
  by destruct (bool_decide _).
Qed.

(** [find] and [existsb] agree on whether a row is there. *)
Lemma find_is_Some {A} (p : A -> bool) (l : list A) :
  bool_decide (is_Some (find p l)) = existsb p l.
Proof.
  induction l as [|a l IH]; [reflexivity|].
  simpl. destruct (p a); [|exact IH].
  apply bool_decide_eq_true. by eexists.
Qed.

Lemma find_Some_In {A} (p : A -> bool) (l : list A) (a : A) :
  find p l = Some a -> In a l /\ p a = true.
Proof. apply find_some. Qed.

(** A row just appended is the one that a query finds when no earlier row
    compares equal. *)
Lemma find_app_new {A} (p : A -> bool) (l : list A) (a : A) :
  existsb p l = false -> p a = true -> find p (l ++ [a]) = Some a.
Proof.
  induction l as [|b l IH]; simpl; intros Hl Ha.
  - by rewrite Ha.
  - apply orb_false_iff in Hl as [Hb Hl]. rewrite Hb. by apply IH.
Qed.

Lemma taken_false (uname mail : string) (rows : list user) :
  taken P uname mail rows = false ->
  existsb (fun u => column_eq P (username u) uname) rows = false
  /\ existsb (fun u => column_eq P (email u) mail) rows = false.
Proof.
  unfold taken. induction rows as [|u rows IH]; [done|].
  simpl. intros H. apply orb_false_iff in H as [H1 H2].
  apply orb_false_iff in H1 as [-> ->]. by apply IH in H2 as [-> ->].
Qed.

Lemma taken_iff (uname mail : string) (rows : list user) :
  taken P uname mail rows
  = existsb (fun u => column_eq P (username u) uname) rows
    || existsb (fun u => column_eq P (email u) mail) rows.
Proof.
  unfold taken. induction rows as [|u rows IH]; [reflexivity|].
  simpl. rewrite IH.
  destruct (column_eq P (username u) uname),
    (column_eq P (email u) mail),
    (existsb (fun u => column_eq P (username u) uname) rows),
    (existsb (fun u => column_eq P (email u) mail) rows); reflexivity.
Qed.

(** A run of [register], step by step. *)
Lemma register_run (form : register_form) (s : site) :
  let hashed :=
    generate_password_hash P (salts s (hashes s)) (reg_psw form) in
  let s1 := count_db (count_hash s) in
  register P form s =
  match db_fault_at s (db_calls s) with
  | Some e => (inr e, s1)
  | None =>
      if taken P (reg_uname form) (reg_email form) (users s) then
        (inr (OtherException "IntegrityError" "Duplicate entry"), s1)
      else
        (inl (Plain
                (Json [("message",
                        JString
                          "User registered successfully! Please log in.")]
                   200)),
         with_row {| id := next_id s; username := reg_uname form;
                     email := reg_email form; password := hashed;
                     registration_date := utc_clock s |} s1)
  end.
Proof.
  unfold register, bind, hash_password, add_commit, ret. cbn -[taken].
  destruct (db_fault_at s (db_calls s)); [reflexivity|].
  by destruct (taken P _ _ _).
Qed.

(** A run of [check_availability], step by step. *)
Lemma check_availability_run (data : gmap string string) (s : site) :
  check_availability P data s =
  match db_fault_at s (db_calls s) with
  | Some e => (inr e, count_db s)
  | None =>
      match db_fault_at s (S (db_calls s)) with
      | Some e => (inr e, count_db (count_db s))
      | None =>
          (inl (Plain
                  (Json
                     [("usernameExists",
                       JBool
                         (existsb
                            (fun u =>
                               column_eq P (username u)
                                 (get_or_empty data "uname"))
                            (users s)));
                      ("emailExists",
                       JBool
                         (existsb
                            (fun u =>
                               column_eq P (email u)
                                 (get_or_empty data "email"))
                            (users s)))] 200)),
           count_db (count_db s))
      end
  end.
Proof.
  unfold check_availability, bind, query_first, ret. cbn.
  destruct (db_fault_at s (db_calls s)); [reflexivity|]. cbn.
  destruct (db_fault_at s (S (db_calls s))); [reflexivity|].
  by rewrite !find_is_Some.
Qed.

(** A run of [login] by a visitor who is not logged in, step by step. *)
Lemma login_run (method : string) (form : login_form) (s : site) :
  ~ logged_in s ->
  let failed :=
    (inl (Template "login.html"),
     with_net
       (emit (EvFlash "Login failed! Check your username and/or password."
                "danger") (net s))
       (count_db s)) in
  login P method form s =
  if String.eqb method "POST" then
    match db_fault_at s (db_calls s) with
    | Some e => (inr e, count_db s)
    | None =>
        match find (fun u => column_eq P (username u) (log_uname form))
                (users s) with
        | Some user =>
            if check_password_hash P (password user) (log_psw form) then
              (inl (Plain (Redirect "resize_image")),
               with_net (emit (EvFlash "Login successful!" "success") (net s))
                 (with_cookie
                    (<["username" := JString (username user)]>
                       (<["user_id" := JInt (Z.of_nat (id user))]>
                          (cookie s)))
                    (count_db s)))
            else failed
        | None => failed
        end
    end
  else (inl (Template "login.html"), s).
Proof.
  intros Ha failed. subst failed.
  unfold login, bind, session_has, query_first, session_set, lift, flash, ret.
  cbn. rewrite (anonymous_decide s Ha).
  destruct (String.eqb method "POST"); [|reflexivity].
  destruct (db_fault_at s (db_calls s)); [reflexivity|]. cbn.
  destruct (find _ (users s)) as [user|]; [|reflexivity].
  by destruct (check_password_hash P _ _).
Qed.

Lemma site_events_eq {A} (m : St A) (s : site) (evs : list event) :
  trace (net (snd (m s))) = (trace (net s) ++ evs)%list ->
  site_events m s = evs.
Proof. unfold site_events. intros ->. apply drop_app_length. Qed.

Lemma site_events_nil {A} (m : St A) (s : site) :
  trace (net (snd (m s))) = trace (net s) -> site_events m s = [].
Proof. intros H. apply site_events_eq. by rewrite app_nil_r. Qed.

Lemma plain_run (m : M response) (s : site) :
  plain m s =
  (match fst (m (net s)) with
   | inl r => inl (Plain r)
   | inr e => inr e
   end,
   with_net (snd (m (net s))) s).
Proof.
  unfold plain, bind, lift, ret. cbn. by destruct (fst (m (net s))).
Qed.

(** Appending a row that compares equal to no row keeps the rows
    unique. *)
Lemma unique_rows_app (rows : list user) (new : user) :
  unique_rows P rows ->
  taken P (username new) (email new) rows = false ->
  unique_rows P (rows ++ [new]).
Proof.
  induction rows as [|u rows IH]; intros Hu Ht.
  - simpl. split; [done|]. by intros v [].
  - destruct Hu as [Hu Hall]. unfold taken in Ht. simpl in Ht.
    apply orb_false_iff in Ht as [Ht1 Ht2].
    apply orb_false_iff in Ht1 as [Hn He].
    simpl. split; [by apply IH|].
    intros v Hin. apply in_app_or in Hin as [Hin|[<-|[]]]; [by apply Hall|].
    by split.
Qed.

End SiteRuns.

(** What a registration that went through has done. *)
Lemma register_ok_inv (P : Site.platform) (form : Site.register_form)
    (s : Site.site) (v : Site.view) :
  fst (Site.register P form s) = inl v ->
  Site.db_fault_at s (Site.db_calls s) = None
  /\ Site.taken P (Site.reg_uname form) (Site.reg_email form) (Site.users s)
     = false
  /\ snd (Site.register P form s)
     = Site.with_row
         {| Site.id := Site.next_id s;
            Site.username := Site.reg_uname form;
            Site.email := Site.reg_email form;
            Site.password :=
              Site.generate_password_hash P
                (Site.salts s (Site.hashes s)) (Site.reg_psw form);
            Site.registration_date := Site.utc_clock s |}
         (Site.count_db (Site.count_hash s)).
Proof.
  rewrite register_run.
  destruct (Site.db_fault_at s (Site.db_calls s)); [done|].
  by destruct (Site.taken P _ _ _).
Qed.

(** A registration that meets a row comparing equal. *)
Lemma register_duplicate_aux (P : Site.platform) (form : Site.register_form)
    (s : Site.site) (row : Site.user) :
  Site.db_fault_at s (Site.db_calls s) = None ->
  In row (Site.users s) ->
  Site.column_eq P (Site.username row) (Site.reg_uname form) = true
  \/ Site.column_eq P (Site.email row) (Site.reg_email form) = true ->
  fst (Site.register P form s)
  = inr (OtherException "IntegrityError" "Duplicate entry")
  /\ Site.users (snd (Site.register P form s)) = Site.users s.
Proof.
  intros Hdb Hin Heq.
  assert (Ht : Site.taken P (Site.reg_uname form) (Site.reg_email form)
                 (Site.users s) = true).
  { unfold Site.taken. apply existsb_exists. exists row. split; [done|].
    apply orb_true_iff. exact Heq. }
  by rewrite register_run, Hdb, Ht.
Qed.

(** The upload route without [user_id] in the session. *)
Lemma upload_anonymous (cfg : config) (req : upload_request)
    (s : Site.site) :
  ~ Site.logged_in s ->
  Site.upload cfg req s
  = (inl (Site.Plain (Redirect "login")),
     Site.with_net
       (emit (EvFlash "You need to log in first." "danger") (Site.net s)) s).
Proof.
  intros Ha. unfold Site.upload.
  by rewrite login_required_run, (anonymous_decide s Ha).
Qed.

(** The stand-in platform of the scenarios checks what it generates and
    compares a value equal to itself. *)
Lemma toy_hash_complete : Site.hash_complete SiteScenario.toy.
Proof.
  intros salt pw.
  unfold Site.check_password_hash, Site.generate_password_hash,
    SiteScenario.toy.
  rewrite strip_prefix_app. apply String.eqb_refl.
Qed.

Lemma toy_column_eq_refl : Site.column_eq_refl SiteScenario.toy.
Proof. intros v. apply String.eqb_refl. Qed.

(** ** The decorator and the pages *)

(** X15 (lines 44-51, 112-119, 159-161): without [user_id] in the session,
    the three protected routes do nothing but flash the request to log in
    and redirect to the login page: no call to the store or to the
    trigger endpoint is made. *)
Theorem protected_routes_anonymous (cfg : config) (req : upload_request)
    (resized_key : string) (s : Site.site) :
  ~ Site.logged_in s ->
  let turned_away :=
    (inl (Site.Plain (Redirect "login")),
     Site.with_net
       (emit (EvFlash "You need to log in first." "danger") (Site.net s)) s)
  in
  Site.upload cfg req s = turned_away
  /\ Site.check_resized cfg resized_key s = turned_away
  /\ Site.resize_image s = turned_away.
Proof.
  intros Ha turned_away. unfold Site.upload, Site.check_resized,
    Site.resize_image.
  by rewrite !login_required_run, (anonymous_decide s Ha).
Qed.

(** X15 on an upload without a session. *)
Lemma protected_routes_anonymous_witness :
  let s := SiteScenario.site_of [SiteScenario.alice] SiteScenario.anonymous in
  ~ Site.logged_in s /\
  fst (Site.upload Scenario.cfg (Scenario.png "cat.png" 2 1 1) s)
  = inl (Site.Plain (Redirect "login")).
Proof.
  intros s.
  assert (Ha : ~ Site.logged_in s) by (intros [v Hv]; discriminate Hv).
  split; [exact Ha|].
  exact (f_equal fst
           (proj1 (protected_routes_anonymous Scenario.cfg
                     (Scenario.png "cat.png" 2 1 1) "" s Ha))).
Defined.

(** X16 (lines 44-51, 112-119, 159-161): with [user_id] in the session, the
    protected routes are their handlers: the two workflow routes answer
    what [upload_image] and [check_resized_image] answer on the world of
    the site and leave session and accounts alone, and [/resize-image]
    renders its template. *)
Theorem protected_routes_logged_in (cfg : config) (req : upload_request)
    (resized_key : string) (s : Site.site) :
  Site.logged_in s ->
  Site.upload cfg req s
  = (match fst (upload_image cfg req (Site.net s)) with
     | inl r => inl (Site.Plain r)
     | inr e => inr e
     end,
     Site.with_net (snd (upload_image cfg req (Site.net s))) s)
  /\ Site.check_resized cfg resized_key s
     = (match fst (check_resized_image cfg resized_key (Site.net s)) with
        | inl r => inl (Site.Plain r)
        | inr e => inr e
        end,
        Site.with_net
          (snd (check_resized_image cfg resized_key (Site.net s))) s)
  /\ Site.resize_image s = (inl (Site.Template "resize-image.html"), s).
Proof.
  intros Hl. unfold Site.upload, Site.check_resized, Site.resize_image.
  by rewrite !login_required_run, (logged_in_decide s Hl), !plain_run.
Qed.

(** X16 on a check by a logged-in user while nothing is resized yet. *)
Lemma protected_routes_logged_in_witness :
  let s := SiteScenario.site_of [SiteScenario.alice] SiteScenario.as_alice in
  Site.logged_in s /\
  fst (Site.check_resized Scenario.cfg "resized-20240101120000.png" s)
  = inl (Site.Plain (Json [("exists", JBool false)] 200)).
Proof.
  intros s.
  assert (Hl : Site.logged_in s) by (by eexists).
  split; [exact Hl|].
  exact (f_equal fst
           (proj1 (proj2 (protected_routes_logged_in Scenario.cfg
                            (Scenario.png "cat.png" 2 1 1)
                            "resized-20240101120000.png" s Hl)))).
Defined.

(** X17 (lines 53-57, 84-88, 112-115): for a logged-in visitor every
    redirect lands on a page.  The index and the login page both send to
    [/resize-image], whatever the method and the form, without touching
    anything, and [/resize-image] renders. *)
Theorem redirects_land_logged_in (P : Site.platform) (method : string)
    (form : Site.login_form) (s : Site.site) :
  Site.logged_in s ->
  Site.index s = (inl (Site.Plain (Redirect "resize_image")), s)
  /\ Site.login P method form s
     = (inl (Site.Plain (Redirect "resize_image")), s)
  /\ Site.resize_image s = (inl (Site.Template "resize-image.html"), s).
Proof.
  intros Hl. repeat split.
  - unfold Site.index, Site.bind, Site.session_has, Site.ret.
    by rewrite (logged_in_decide s Hl).
  - unfold Site.login, Site.bind, Site.session_has, Site.ret.
    by rewrite (logged_in_decide s Hl).
  - unfold Site.resize_image.
    by rewrite login_required_run, (logged_in_decide s Hl).
Qed.

(** X17 on a logged-in user who posts other credentials to the login
    page. *)
Lemma redirects_land_logged_in_witness :
  let s := SiteScenario.site_of [SiteScenario.alice] SiteScenario.as_alice in
  Site.logged_in s /\
  Site.login SiteScenario.toy "POST"
    {| Site.log_uname := "bob"; Site.log_psw := "builder" |} s
  = (inl (Site.Plain (Redirect "resize_image")), s).
Proof.
  intros s.
  assert (Hl : Site.logged_in s) by (by eexists).
  split; [exact Hl|].
  exact (proj1 (proj2 (redirects_land_logged_in SiteScenario.toy "POST"
                         {| Site.log_uname := "bob";
                            Site.log_psw := "builder" |} s Hl))).
Defined.

(** X18 (lines 44-57, 84-104, 112-115): for a visitor who is not logged in
    every redirect lands on a page too.  The index renders, [/resize-image]
    sends to the login page, and the login page, asked with any method
    but POST after that, renders its template and changes nothing. *)
Theorem redirects_land_anonymous (P : Site.platform) (method : string)
    (form : Site.login_form) (s : Site.site) :
  ~ Site.logged_in s ->
  method <> "POST" ->
  Site.index s = (inl (Site.Template "index.html"), s)
  /\ fst (Site.resize_image s) = inl (Site.Plain (Redirect "login"))
  /\ Site.login P method form (snd (Site.resize_image s))
     = (inl (Site.Template "login.html"), snd (Site.resize_image s)).
Proof.
  intros Ha Hm. repeat split.
  - unfold Site.index, Site.bind, Site.session_has, Site.ret.
    by rewrite (anonymous_decide s Ha).
  - unfold Site.resize_image.
    by rewrite login_required_run, (anonymous_decide s Ha).
  - unfold Site.resize_image.
    rewrite login_required_run, (anonymous_decide s Ha). cbn [snd].
    rewrite login_run by exact Ha.
    by rewrite (proj2 (String.eqb_neq method "POST") Hm).
Qed.

(** X18 on a visitor without a session, with GET. *)
Lemma redirects_land_anonymous_witness :
  let s := SiteScenario.site_of [SiteScenario.alice] SiteScenario.anonymous in
  ~ Site.logged_in s /\ "GET" <> "POST" /\
  fst (Site.login SiteScenario.toy "GET"
         {| Site.log_uname := ""; Site.log_psw := "" |}
         (snd (Site.resize_image s)))
  = inl (Site.Template "login.html").
Proof.
  intros s.
  assert (Ha : ~ Site.logged_in s) by (intros [v Hv]; discriminate Hv).
  assert (Hm : "GET" <> "POST") by discriminate.
  split; [exact Ha|]. split; [exact Hm|].
  exact (f_equal fst
           (proj2 (proj2 (redirects_land_anonymous SiteScenario.toy "GET"
                            {| Site.log_uname := ""; Site.log_psw := "" |}
                            s Ha Hm)))).
Defined.

(** ** Logging in and out *)

(** X19 (lines 90-100): a POST by a visitor who is not logged in, for a
    user name that the table holds, with a password that checks against
    the stored hash, opens the session: it gets the row's key and user
    name, a success is flashed, the answer redirects to [/resize-image],
    and the table is as it was. *)
Theorem login_succeeds (P : Site.platform) (form : Site.login_form)
    (s : Site.site) (user : Site.user) :
  ~ Site.logged_in s ->
  Site.db_fault_at s (Site.db_calls s) = None ->
  find (fun u => Site.column_eq P (Site.username u) (Site.log_uname form))
    (Site.users s) = Some user ->
  Site.check_password_hash P (Site.password user) (Site.log_psw form) = true ->
  let s' := snd (Site.login P "POST" form s) in
  fst (Site.login P "POST" form s) = inl (Site.Plain (Redirect "resize_image"))
  /\ Site.cookie s'
     = <["username" := JString (Site.username user)]>
         (<["user_id" := JInt (Z.of_nat (Site.id user))]> (Site.cookie s))
  /\ Site.logged_in s'
  /\ Site.users s' = Site.users s
  /\ Site.site_events (Site.login P "POST" form) s
     = [EvFlash "Login successful!" "success"].
Proof.
  intros Ha Hdb Hf Hc s'. subst s'.
  rewrite (login_run P "POST" form s Ha), Hdb, Hf, Hc. cbn.
  repeat split.
  - unfold Site.logged_in. cbn.
    rewrite lookup_insert_ne by done. rewrite lookup_insert_eq. by eexists.
  - apply site_events_eq.
    by rewrite (login_run P "POST" form s Ha), Hdb, Hf, Hc.
Qed.

(** X19 on alice and her password. *)
Lemma login_succeeds_witness :
  let s := SiteScenario.site_of [SiteScenario.alice] SiteScenario.anonymous in
  let form := {| Site.log_uname := "alice"; Site.log_psw := "wonderland" |} in
  ~ Site.logged_in s /\
  Site.db_fault_at s (Site.db_calls s) = None /\
  find (fun u =>
          Site.column_eq SiteScenario.toy (Site.username u)
            (Site.log_uname form))
    (Site.users s) = Some SiteScenario.alice /\
  Site.check_password_hash SiteScenario.toy
    (Site.password SiteScenario.alice) (Site.log_psw form) = true /\
  fst (Site.login SiteScenario.toy "POST" form s)
  = inl (Site.Plain (Redirect "resize_image")).
Proof.
  intros s form.
  assert (Ha : ~ Site.logged_in s) by (intros [v Hv]; discriminate Hv).
  split; [exact Ha|]. split; [reflexivity|]. split; [reflexivity|].
  split; [reflexivity|].
  exact (proj1 (login_succeeds SiteScenario.toy form s SiteScenario.alice
                  Ha eq_refl eq_refl eq_refl)).
Defined.

(** X20 (lines 90-104): a POST by a visitor who is not logged in, for a
    user name that the table does not hold or with a password that does
    not check against the stored hash, leaves the session closed and
    unchanged: a failure is flashed and the login page rendered again. *)
Theorem login_fails (P : Site.platform) (form : Site.login_form)
    (s : Site.site) :
  ~ Site.logged_in s ->
  Site.db_fault_at s (Site.db_calls s) = None ->
  (forall user,
     find (fun u => Site.column_eq P (Site.username u) (Site.log_uname form))
       (Site.users s) = Some user ->
     Site.check_password_hash P (Site.password user) (Site.log_psw form)
     = false) ->
  let s' := snd (Site.login P "POST" form s) in
  fst (Site.login P "POST" form s) = inl (Site.Template "login.html")
  /\ Site.cookie s' = Site.cookie s
  /\ ~ Site.logged_in s'
  /\ Site.users s' = Site.users s
  /\ Site.site_events (Site.login P "POST" form) s
     = [EvFlash "Login failed! Check your username and/or password."
          "danger"].
Proof.
  intros Ha Hdb Hbad s'. subst s'.
  assert (Hrun :
    Site.login P "POST" form s
    = (inl (Site.Template "login.html"),
       Site.with_net
         (emit (EvFlash "Login failed! Check your username and/or password."
                  "danger") (Site.net s))
         (Site.count_db s))).
  { rewrite (login_run P "POST" form s Ha), Hdb. cbn.
    destruct (find _ (Site.users s)) as [user|] eqn:Hf; [|reflexivity].
    by rewrite (Hbad user eq_refl). }
  rewrite Hrun. cbn. repeat split; try done.
  apply site_events_eq. by rewrite Hrun.
Qed.

(** X20 on alice with a wrong password. *)
Lemma login_fails_witness :
  let s := SiteScenario.site_of [SiteScenario.alice] SiteScenario.anonymous in
  let form := {| Site.log_uname := "alice"; Site.log_psw := "guess" |} in
  ~ Site.logged_in s /\
  Site.db_fault_at s (Site.db_calls s) = None /\
  fst (Site.login SiteScenario.toy "POST" form s)
  = inl (Site.Template "login.html").
Proof.
  intros s form.
  assert (Ha : ~ Site.logged_in s) by (intros [v Hv]; discriminate Hv).
  assert (Hbad : forall user,
            find (fun u =>
                    Site.column_eq SiteScenario.toy (Site.username u)
                      (Site.log_uname form))
              (Site.users s) = Some user ->
            Site.check_password_hash SiteScenario.toy (Site.password user)
              (Site.log_psw form) = false).
  { intros user Hf. injection Hf as <-. reflexivity. }
  split; [exact Ha|]. split; [reflexivity|].
  exact (proj1 (login_fails SiteScenario.toy form s Ha eq_refl Hbad)).
Defined.

(** X21 (lines 84-104): [login] opens no session without credentials that
    check.  If a visitor who was not logged in is logged in after it, the
    request was a POST and the table holds a row whose user name compares
    equal to the posted one, whose hash the posted password checks
    against, and whose key is now the [user_id] of the session. *)
Theorem login_needs_credentials (P : Site.platform) (method : string)
    (form : Site.login_form) (s : Site.site) :
  ~ Site.logged_in s ->
  Site.logged_in (snd (Site.login P method form s)) ->
  method = "POST"
  /\ exists user,
       In user (Site.users s)
       /\ Site.column_eq P (Site.username user) (Site.log_uname form) = true
       /\ Site.check_password_hash P (Site.password user) (Site.log_psw form)
          = true
       /\ Site.cookie (snd (Site.login P method form s)) !! "user_id"
          = Some (JInt (Z.of_nat (Site.id user))).
Proof.
  intros Ha. rewrite (login_run P method form s Ha).
  destruct (String.eqb_spec method "POST") as [->|Hm]; [|done].
  destruct (Site.db_fault_at s (Site.db_calls s)); [done|].
  destruct (find _ (Site.users s)) as [user|] eqn:Hf; [|done].
  destruct (Site.check_password_hash P _ _) eqn:Hc; [|done].
  intros _. split; [reflexivity|]. exists user.
  apply find_some in Hf as [Hin Heq]. repeat split; try done.
  cbn. rewrite lookup_insert_ne by done. apply lookup_insert_eq.
Qed.

(** X21 on alice logging in. *)
Lemma login_needs_credentials_witness :
  let s := SiteScenario.site_of [SiteScenario.alice] SiteScenario.anonymous in
  let form := {| Site.log_uname := "alice"; Site.log_psw := "wonderland" |} in
  ~ Site.logged_in s /\
  Site.logged_in (snd (Site.login SiteScenario.toy "POST" form s)) /\
  "POST" = "POST".
Proof.
  intros s form.
  assert (Ha : ~ Site.logged_in s) by (intros [v Hv]; discriminate Hv).
  assert (Hl : Site.logged_in (snd (Site.login SiteScenario.toy "POST" form s)))
    by (by eexists).
  split; [exact Ha|]. split; [exact Hl|].
  exact (proj1 (login_needs_credentials SiteScenario.toy "POST" form s Ha Hl)).
Defined.

(** X22 (lines 44-57, 106-110): [logout] closes the session, whatever it
    held: the session is empty, a message is flashed, the answer
    redirects to the index, the table is as it was; after it, the index
    renders and the upload route turns the visitor away. *)
Theorem logout_closes_session (cfg : config) (req : upload_request)
    (s : Site.site) :
  let s' := snd (Site.logout s) in
  fst (Site.logout s) = inl (Site.Plain (Redirect "index"))
  /\ Site.cookie s' = ∅
  /\ Site.users s' = Site.users s
  /\ Site.site_events Site.logout s
     = [EvFlash "You have been logged out." "success"]
  /\ fst (Site.index s') = inl (Site.Template "index.html")
  /\ fst (Site.upload cfg req s') = inl (Site.Plain (Redirect "login"))
  /\ objects (Site.net (snd (Site.upload cfg req s')))
     = objects (Site.net s).
Proof.
  intros s'.
  assert (Ha : ~ Site.logged_in s').
  { intros [v Hv]. subst s'. cbn in Hv. by rewrite lookup_empty in Hv. }
  split; [reflexivity|]. split; [reflexivity|]. split; [reflexivity|].
  split; [by apply site_events_eq|]. split; [|split].
  - unfold Site.index, Site.bind, Site.session_has, Site.ret.
    by rewrite (anonymous_decide s' Ha).
  - by rewrite (upload_anonymous cfg req s' Ha).
  - by rewrite (upload_anonymous cfg req s' Ha).
Qed.

(** ** Accounts *)

(** X23 (lines 33-38, 59-71): when no row compares equal in user name or
    in email and the database answers, [register] appends one row, with
    the next key, the posted user name and email, the hash of the posted
    password (not the password) and the reading of the UTC clock; it
    answers with its message, and does not open a session. *)
Theorem register_inserts (P : Site.platform) (form : Site.register_form)
    (s : Site.site) :
  Site.db_fault_at s (Site.db_calls s) = None ->
  Site.taken P (Site.reg_uname form) (Site.reg_email form) (Site.users s)
  = false ->
  let s' := snd (Site.register P form s) in
  fst (Site.register P form s)
  = inl (Site.Plain
           (Json [("message",
                   JString "User registered successfully! Please log in.")]
              200))
  /\ Site.users s'
     = (Site.users s ++
        [{| Site.id := Site.next_id s;
            Site.username := Site.reg_uname form;
            Site.email := Site.reg_email form;
            Site.password :=
              Site.generate_password_hash P
                (Site.salts s (Site.hashes s)) (Site.reg_psw form);
            Site.registration_date := Site.utc_clock s |}])%list
  /\ Site.cookie s' = Site.cookie s
  /\ Site.net s' = Site.net s.
Proof. intros Hdb Ht s'. subst s'. by rewrite register_run, Hdb, Ht. Qed.

(** X23 on bob joining alice. *)
Lemma register_inserts_witness :
  let s := SiteScenario.site_of [SiteScenario.alice] SiteScenario.anonymous in
  let form :=
    {| Site.reg_uname := "bob"; Site.reg_email := "bob@example.com";
       Site.reg_psw := "builder" |} in
  Site.db_fault_at s (Site.db_calls s) = None /\
  Site.taken SiteScenario.toy (Site.reg_uname form) (Site.reg_email form)
    (Site.users s) = false /\
  Site.users (snd (Site.register SiteScenario.toy form s))
  = [SiteScenario.alice;
     {| Site.id := 2; Site.username := "bob";
        Site.email := "bob@example.com"; Site.password := "s0$builder";
        Site.registration_date := Scenario.noon 0 |}].
Proof.
  intros s form. split; [reflexivity|]. split; [reflexivity|].
  exact (proj1 (proj2 (register_inserts SiteScenario.toy form s
                         eq_refl eq_refl))).
Defined.

(** X24 (lines 35-36, 59-71): when a row compares equal to the posted user
    name or to the posted email, [register] raises the [IntegrityError] of
    the commit, which it does not catch, and the table is as it was. *)
Theorem register_duplicate (P : Site.platform) (form : Site.register_form)
    (s : Site.site) (row : Site.user) :
  Site.db_fault_at s (Site.db_calls s) = None ->
  In row (Site.users s) ->
  Site.column_eq P (Site.username row) (Site.reg_uname form) = true
  \/ Site.column_eq P (Site.email row) (Site.reg_email form) = true ->
  fst (Site.register P form s)
  = inr (OtherException "IntegrityError" "Duplicate entry")
  /\ Site.users (snd (Site.register P form s)) = Site.users s.
Proof. apply register_duplicate_aux. Qed.

(** X24 on a second alice with another email. *)
Lemma register_duplicate_witness :
  let s := SiteScenario.site_of [SiteScenario.alice] SiteScenario.anonymous in
  let form :=
    {| Site.reg_uname := "alice"; Site.reg_email := "other@example.com";
       Site.reg_psw := "x" |} in
  Site.db_fault_at s (Site.db_calls s) = None /\
  In SiteScenario.alice (Site.users s) /\
  fst (Site.register SiteScenario.toy form s)
  = inr (OtherException "IntegrityError" "Duplicate entry").
Proof.
  intros s form.
  assert (Hin : In SiteScenario.alice (Site.users s)) by (by left).
  split; [reflexivity|]. split; [exact Hin|].
  exact (proj1 (register_duplicate SiteScenario.toy form s SiteScenario.alice
                  eq_refl Hin (or_introl eq_refl))).
Defined.

(** X25 (lines 35-36, 59-71): [register] keeps user names and emails
    unique.  If no row of the table compares equal, in user name or in
    email, to a row inserted before it, the same holds after [register],
    however it ends. *)
Theorem register_keeps_unique (P : Site.platform) (form : Site.register_form)
    (s : Site.site) :
  Site.unique_rows P (Site.users s) ->
  Site.unique_rows P (Site.users (snd (Site.register P form s))).
Proof.
  intros Hu. rewrite register_run.
  destruct (Site.db_fault_at s (Site.db_calls s)); [exact Hu|].
  destruct (Site.taken P _ _ _) eqn:Ht; [exact Hu|].
  cbn. by apply unique_rows_app.
Qed.

(** X25 on bob joining alice. *)
Lemma register_keeps_unique_witness :
  let s := SiteScenario.site_of [SiteScenario.alice] SiteScenario.anonymous in
  let form :=
    {| Site.reg_uname := "bob"; Site.reg_email := "bob@example.com";
       Site.reg_psw := "builder" |} in
  Site.unique_rows SiteScenario.toy (Site.users s) /\
  Site.unique_rows SiteScenario.toy
    (Site.users (snd (Site.register SiteScenario.toy form s))).
Proof.
  intros s form.
  assert (Hu : Site.unique_rows SiteScenario.toy (Site.users s)).
  { simpl. split; [done|]. by intros v []. }
  split; [exact Hu|].
  exact (register_keeps_unique SiteScenario.toy form s Hu).
Defined.

(** X26 (lines 73-82): when the database answers its two queries,
    [check_availability] reports whether some row compares equal to the
    posted user name and whether some row compares equal to the posted
    email, a missing field counting as the empty text; it changes neither
    table nor session nor anything of the workflow. *)
Theorem check_availability_reports (P : Site.platform)
    (data : gmap string string) (s : Site.site) :
  Site.db_fault_at s (Site.db_calls s) = None ->
  Site.db_fault_at s (S (Site.db_calls s)) = None ->
  let s' := snd (Site.check_availability P data s) in
  fst (Site.check_availability P data s)
  = inl (Site.Plain
           (Json
              [("usernameExists",
                JBool
                  (existsb
                     (fun u =>
                        Site.column_eq P (Site.username u)
                          (Site.get_or_empty data "uname"))
                     (Site.users s)));
               ("emailExists",
                JBool
                  (existsb
                     (fun u =>
                        Site.column_eq P (Site.email u)
                          (Site.get_or_empty data "email"))
                     (Site.users s)))] 200))
  /\ Site.users s' = Site.users s
  /\ Site.cookie s' = Site.cookie s
  /\ Site.net s' = Site.net s.
Proof.
  intros H1 H2 s'. subst s'. by rewrite check_availability_run, H1, H2.
Qed.

(** X26 on a request that names alice and no email. *)
Lemma check_availability_reports_witness :
  let s := SiteScenario.site_of [SiteScenario.alice] SiteScenario.anonymous in
  Site.db_fault_at s (Site.db_calls s) = None /\
  Site.db_fault_at s (S (Site.db_calls s)) = None /\
  fst (Site.check_availability SiteScenario.toy (<["uname" := "alice"]> ∅) s)
  = inl (Site.Plain
           (Json [("usernameExists", JBool true);
                  ("emailExists", JBool false)] 200)).
Proof.
  intros s. split; [reflexivity|]. split; [reflexivity|].
  exact (proj1 (check_availability_reports SiteScenario.toy
                  (<["uname" := "alice"]> ∅) s eq_refl eq_refl)).
Defined.

(** X27 (lines 59-82): [check_availability] tells what [register] will do.
    With a database that answers, a registration of the user name and the
    email just checked goes through if both were reported free, and
    raises the [IntegrityError] if one was reported taken. *)
Theorem availability_then_register (P : Site.platform)
    (data : gmap string string) (psw : string) (s : Site.site) :
  Site.db_fault_at s (Site.db_calls s) = None ->
  Site.db_fault_at s (S (Site.db_calls s)) = None ->
  Site.db_fault_at s (S (S (Site.db_calls s))) = None ->
  exists username_exists email_exists : bool,
    fst (Site.check_availability P data s)
    = inl (Site.Plain
             (Json [("usernameExists", JBool username_exists);
                    ("emailExists", JBool email_exists)] 200))
    /\ fst (Site.register P
              {| Site.reg_uname := Site.get_or_empty data "uname";
                 Site.reg_email := Site.get_or_empty data "email";
                 Site.reg_psw := psw |}
              (snd (Site.check_availability P data s)))
       = if username_exists || email_exists
         then inr (OtherException "IntegrityError" "Duplicate entry")
         else inl (Site.Plain
                     (Json [("message",
                             JString
                               "User registered successfully! Please log in.")]
                        200)).
Proof.
  intros H1 H2 H3. eexists _, _. split.
  - by rewrite check_availability_run, H1, H2.
  - rewrite register_run, check_availability_run, H1, H2.
    cbn -[Site.taken]. rewrite H3, taken_iff.
    by destruct (existsb _ _ || existsb _ _).
Qed.

(** X27 on a free name and a free email. *)
Lemma availability_then_register_witness :
  let s := SiteScenario.site_of [SiteScenario.alice] SiteScenario.anonymous in
  Site.db_fault_at s (Site.db_calls s) = None /\
  Site.db_fault_at s (S (Site.db_calls s)) = None /\
  Site.db_fault_at s (S (S (Site.db_calls s))) = None /\
  exists username_exists email_exists : bool,
    fst (Site.check_availability SiteScenario.toy
           (<["email" := "bob@example.com"]> (<["uname" := "bob"]> ∅)) s)
    = inl (Site.Plain
             (Json [("usernameExists", JBool username_exists);
                    ("emailExists", JBool email_exists)] 200))
    /\ fst (Site.register SiteScenario.toy
              {| Site.reg_uname :=
                   Site.get_or_empty
                     (<["email" := "bob@example.com"]> (<["uname" := "bob"]> ∅))
                     "uname";
                 Site.reg_email :=
                   Site.get_or_empty
                     (<["email" := "bob@example.com"]> (<["uname" := "bob"]> ∅))
                     "email";
                 Site.reg_psw := "builder" |}
              (snd (Site.check_availability SiteScenario.toy
                      (<["email" := "bob@example.com"]>
                         (<["uname" := "bob"]> ∅)) s)))
       = if username_exists || email_exists
         then inr (OtherException "IntegrityError" "Duplicate entry")
         else inl (Site.Plain
                     (Json [("message",
                             JString
                               "User registered successfully! Please log in.")]
                        200)).
Proof.
  intros s. split; [reflexivity|]. split; [reflexivity|].
  split; [reflexivity|].
  exact (availability_then_register SiteScenario.toy
           (<["email" := "bob@example.com"]> (<["uname" := "bob"]> ∅))
           "builder" s eq_refl eq_refl eq_refl).
Defined.

(** X28 (lines 35-36, 59-71): a user name or an email registered once
    cannot be registered again.  After a registration that went through,
    a registration with the same user name or the same email raises the
    [IntegrityError], provided that the database compares a value equal
    to itself. *)
Theorem register_once (P : Site.platform) (form form' : Site.register_form)
    (s : Site.site) (v : Site.view) :
  Site.column_eq_refl P ->
  fst (Site.register P form s) = inl v ->
  Site.db_fault_at s (S (Site.db_calls s)) = None ->
  Site.reg_uname form' = Site.reg_uname form
  \/ Site.reg_email form' = Site.reg_email form ->
  fst (Site.register P form' (snd (Site.register P form s)))
  = inr (OtherException "IntegrityError" "Duplicate entry").
Proof.
  intros Hrefl Hok Hdb Hsame.
  destruct (register_ok_inv P form s v Hok) as (_ & _ & ->).
  match goal with
  | |- context [Site.with_row ?r ?s0] =>
      destruct (register_duplicate_aux P form' (Site.with_row r s0) r)
        as [H _]; [| | |exact H]
  end.
  - exact Hdb.
  - cbn. apply in_or_app. right. by left.
  - cbn. destruct Hsame as [->| ->]; [left|right]; apply Hrefl.
Qed.

(** X28 on bob registered twice, the second time with another email. *)
Lemma register_once_witness :
  let s := SiteScenario.site_of [SiteScenario.alice] SiteScenario.anonymous in
  let form :=
    {| Site.reg_uname := "bob"; Site.reg_email := "bob@example.com";
       Site.reg_psw := "builder" |} in
  let form' :=
    {| Site.reg_uname := "bob"; Site.reg_email := "robert@example.com";
       Site.reg_psw := "other" |} in
  Site.column_eq_refl SiteScenario.toy /\
  fst (Site.register SiteScenario.toy form s)
  = inl (Site.Plain
           (Json [("message",
                   JString "User registered successfully! Please log in.")]
              200)) /\
  Site.db_fault_at s (S (Site.db_calls s)) = None /\
  fst (Site.register SiteScenario.toy form'
         (snd (Site.register SiteScenario.toy form s)))
  = inr (OtherException "IntegrityError" "Duplicate entry").
Proof.
  intros s form form'.
  split; [exact toy_column_eq_refl|]. split; [reflexivity|].
  split; [reflexivity|].
  exact (register_once SiteScenario.toy form form' s _
           toy_column_eq_refl eq_refl eq_refl (or_introl eq_refl)).
Defined.

(** X29 (lines 59-71, 84-100): who registered can log in.  After a
    registration that went through, a POST to [/login] with the same user
    name and password, by a visitor who is not logged in, opens the
    session on the new row: provided that the database answers and
    compares a value equal to itself, and that a hash checks against the
    password it was generated from. *)
Theorem register_then_login (P : Site.platform) (form : Site.register_form)
    (s : Site.site) (v : Site.view) :
  Site.hash_complete P ->
  Site.column_eq_refl P ->
  ~ Site.logged_in s ->
  fst (Site.register P form s) = inl v ->
  Site.db_fault_at s (S (Site.db_calls s)) = None ->
  let credentials :=
    {| Site.log_uname := Site.reg_uname form;
       Site.log_psw := Site.reg_psw form |} in
  let s1 := snd (Site.register P form s) in
  let s2 := snd (Site.login P "POST" credentials s1) in
  fst (Site.login P "POST" credentials s1)
  = inl (Site.Plain (Redirect "resize_image"))
  /\ Site.cookie s2 !! "user_id" = Some (JInt (Z.of_nat (Site.next_id s)))
  /\ Site.cookie s2 !! "username" = Some (JString (Site.reg_uname form)).
Proof.
  intros Hhash Hrefl Ha Hok Hdb credentials s1 s2. subst s2 s1.
  destruct (register_ok_inv P form s v Hok) as (_ & Ht & ->).
  apply taken_false in Ht as [Hu _].
  match goal with
  | |- context [Site.with_row ?r ?s0] =>
      set (row := r); set (s1 := Site.with_row row s0)
  end.
  assert (Ha1 : ~ Site.logged_in s1) by exact Ha.
  assert (Hfind :
    find (fun u => Site.column_eq P (Site.username u)
                     (Site.log_uname credentials))
      (Site.users s1) = Some row).
  { subst s1. cbn. apply find_app_new; [exact Hu|]. cbn. apply Hrefl. }
  assert (Hcheck : Site.check_password_hash P (Site.password row)
                     (Site.log_psw credentials) = true)
    by apply Hhash.
  rewrite (login_run P "POST" credentials s1 Ha1).
  change (Site.db_fault_at s1 (Site.db_calls s1))
    with (Site.db_fault_at s (S (Site.db_calls s))).
  rewrite Hdb, Hfind, Hcheck. cbn. repeat split.
  - rewrite lookup_insert_ne by done. apply lookup_insert_eq.
  - apply lookup_insert_eq.
Qed.

(** X29 on bob. *)
Lemma register_then_login_witness :
  let s := SiteScenario.site_of [SiteScenario.alice] SiteScenario.anonymous in
  let form :=
    {| Site.reg_uname := "bob"; Site.reg_email := "bob@example.com";
       Site.reg_psw := "builder" |} in
  Site.hash_complete SiteScenario.toy /\
  Site.column_eq_refl SiteScenario.toy /\
  ~ Site.logged_in s /\
  fst (Site.register SiteScenario.toy form s)
  = inl (Site.Plain
           (Json [("message",
                   JString "User registered successfully! Please log in.")]
              200)) /\
  Site.db_fault_at s (S (Site.db_calls s)) = None /\
  fst (Site.login SiteScenario.toy "POST"
         {| Site.log_uname := "bob"; Site.log_psw := "builder" |}
         (snd (Site.register SiteScenario.toy form s)))
  = inl (Site.Plain (Redirect "resize_image")).
Proof.
  intros s form.
  assert (Ha : ~ Site.logged_in s) by (intros [v Hv]; discriminate Hv).
  split; [exact toy_hash_complete|]. split; [exact toy_column_eq_refl|].
  split; [exact Ha|]. split; [reflexivity|]. split; [reflexivity|].
  exact (proj1 (register_then_login SiteScenario.toy form s _
                  toy_hash_complete toy_column_eq_refl Ha eq_refl eq_refl)).
Defined.
